(** * CV export endpoints: a shallow embedding and its verified properties

    The repository holds two Next.js route handlers,

      - [src/app/api/candidates/cvs/route.ts]   (module [CandidatesRoute])
      - the campaign-applications twin           (module [CampaignRoute])

    Both export rows of a table as CSV, each row enriched with a signed
    download URL.  The helpers [csvEscape], [parseExpiresInSeconds] and
    [isAuthorized] are textually identical in the two files and are
    embedded once; the two [GET] handlers are embedded separately. *)

From Stdlib Require Import String Ascii List NArith ZArith Bool Lia.
From Stdlib Require Import DecimalString.
Import ListNotations.

Set Implicit Arguments.

(** ** ECMAScript strings

    A JavaScript string is a sequence of UTF-16 code units.  Code units
    are kept as [N]; literals of the source are written [str "..."]. *)

Definition code_unit := N.
Definition jsstring := list code_unit.

Definition str (s : string) : jsstring :=
  map N_of_ascii (list_ascii_of_string s).

Fixpoint jseqb (a b : jsstring) : bool :=
  match a, b with
  | [], [] => true
  | x :: a', y :: b' => N.eqb x y && jseqb a' b'
  | _, _ => false
  end.

(** [a === b] on [string | null] operands: [None] is [null]. *)
Definition strict_eq (a b : option jsstring) : bool :=
  match a, b with
  | None, None => true
  | Some x, Some y => jseqb x y
  | _, _ => false
  end.

(** ToBoolean on a [string | null | undefined]: only a non-empty string
    is truthy. *)
Definition truthy (v : option jsstring) : bool :=
  match v with
  | Some (_ :: _) => true
  | _ => false
  end.

(** [a || b] where the right operand is a string. *)
Definition or_else (a : option jsstring) (b : jsstring) : jsstring :=
  match a with
  | Some (c :: s) => c :: s
  | _ => b
  end.

(** [a || b] where the right operand may itself be null. *)
Definition or_opt (a b : option jsstring) : option jsstring :=
  if truthy a then a else b.

(** WhiteSpace and LineTerminator code points of ECMA-262 (all of them
    lie in the basic plane, hence are single code units): TAB, LF, VT,
    FF, CR, SP, NBSP, U+1680, U+2000..U+200A, LS, PS, U+202F, U+205F,
    U+3000 and the byte-order mark. *)
Definition isWhiteSpace (c : code_unit) : bool :=
  ((9 <=? c) && (c <=? 13) || (c =? 32) || (c =? 160) || (c =? 5760)
   || (8192 <=? c) && (c <=? 8202) || (c =? 8232) || (c =? 8233)
   || (c =? 8239) || (c =? 8287) || (c =? 12288) || (c =? 65279))%N.

Fixpoint trimStart (s : jsstring) : jsstring :=
  match s with
  | c :: s' => if isWhiteSpace c then trimStart s' else s
  | [] => []
  end.

Definition trimEnd (s : jsstring) : jsstring := rev (trimStart (rev s)).

(** [String.prototype.trim]. *)
Definition trim (s : jsstring) : jsstring := trimEnd (trimStart s).

(** [String.prototype.startsWith] (position 0). *)
Fixpoint startsWith (s prefix : jsstring) : bool :=
  match prefix, s with
  | [], _ => true
  | p :: prefix', c :: s' => N.eqb c p && startsWith s' prefix'
  | _ :: _, [] => false
  end.

(** [Array.prototype.join] on strings. *)
Fixpoint join (sep : jsstring) (parts : list jsstring) : jsstring :=
  match parts with
  | [] => []
  | [p] => p
  | p :: rest => p ++ sep ++ join sep rest
  end.

(** [n.toString()] for an array length. *)
Definition nat_toString (n : nat) : jsstring :=
  str (NilZero.string_of_uint (Nat.to_uint n)).

(** ** csvEscape *)

(** The argument of [csvEscape] has type [unknown].  Strings, [null] and
    [undefined] are kept apart; any other value is represented by what
    [String(value)] yields for it. *)
Inductive jsvalue : Type :=
| VNull
| VUndefined
| VString (s : jsstring)
| VOther (rendering : jsstring).

(** [String(value)] for a value that is neither null nor undefined. *)
Definition String_of (v : jsvalue) : jsstring :=
  match v with
  | VNull => str "null"
  | VUndefined => str "undefined"
  | VString s => s
  | VOther r => r
  end.

Definition DQUOTE : code_unit := 34%N.
Definition COMMA : code_unit := 44%N.
Definition LF : code_unit := 10%N.
Definition CR : code_unit := 13%N.

(** The character class of the regular expression tested by the source:
    double quote, line feed, carriage return, comma. *)
Definition csv_special (c : code_unit) : bool :=
  (N.eqb c DQUOTE || N.eqb c LF || N.eqb c CR || N.eqb c COMMA).

(** [regex.test(str)] for that one-character class. *)
Definition test_special (s : jsstring) : bool := existsb csv_special s.

(** [str.replace(re, two_quotes)] with the global regular expression
    matching one double quote: every double quote is doubled. *)
Fixpoint replace_quotes (s : jsstring) : jsstring :=
  match s with
  | [] => []
  | c :: s' =>
      if N.eqb c DQUOTE then DQUOTE :: DQUOTE :: replace_quotes s'
      else c :: replace_quotes s'
  end.

Definition csvEscape (value : jsvalue) : jsstring :=
  match value with
  | VNull | VUndefined => []
  | _ =>
      let s := String_of value in
      if test_special s
      then DQUOTE :: replace_quotes s ++ [DQUOTE]
      else s
  end.

(** ** Numbers

    [Number.parseInt] yields an IEEE double.  The handlers only ever test
    the result for finiteness and positivity, scale it by positive
    integer constants and take its minimum with a constant below 2^53.
    A number is therefore kept as [NaN], an infinity, or [Finite z]
    where [z] is the mathematical integer before rounding: rounding to
    nearest is monotone and exact up to 2^53, so each of those
    observations gives the same answer on [z] as on the double.  The one
    place rounding is visible is overflow: a magnitude of at least
    2^1024 - 2^970 rounds to an infinity. *)

Inductive number : Type :=
| NaN
| PosInf
| NegInf
| Finite (z : Z).

Definition overflow_bound : Z := (2 ^ 1024 - 2 ^ 970)%Z.

(** The Number value for a mathematical integer. *)
Definition Number_of_Z (x : Z) : number :=
  if (overflow_bound <=? x)%Z then PosInf
  else if (x <=? - overflow_bound)%Z then NegInf
  else Finite x.

(** [Number.isFinite]. *)
Definition isFinite (n : number) : bool :=
  match n with
  | Finite _ => true
  | _ => false
  end.

(** [a < b]; any comparison with NaN is false. *)
Definition num_ltb (a b : number) : bool :=
  match a, b with
  | NaN, _ | _, NaN => false
  | Finite x, Finite y => (x <? y)%Z
  | NegInf, NegInf => false
  | NegInf, _ => true
  | PosInf, _ => false
  | Finite _, PosInf => true
  | Finite _, NegInf => false
  end.

(** [a > b]. *)
Definition num_gtb (a b : number) : bool := num_ltb b a.

(** [Math.min(a, b)]. *)
Definition Math_min (a b : number) : number :=
  match a, b with
  | NaN, _ | _, NaN => NaN
  | _, _ => if num_ltb a b then a else b
  end.

Definition num_sign (n : number) : Z :=
  match n with
  | NaN => 0
  | PosInf => 1
  | NegInf => -1
  | Finite z => Z.sgn z
  end.

(** [a * b]. *)
Definition num_mul (a b : number) : number :=
  match a, b with
  | NaN, _ | _, NaN => NaN
  | Finite x, Finite y => Number_of_Z (x * y)
  | _, _ =>
      match (num_sign a * num_sign b)%Z with
      | Z0 => NaN
      | Zpos _ => PosInf
      | Zneg _ => NegInf
      end
  end.

(** *** Number.parseInt(string, 10) *)

Definition isDigit (c : code_unit) : bool := ((48 <=? c) && (c <=? 57))%N.

Definition PLUS : code_unit := 43%N.
Definition MINUS : code_unit := 45%N.

(** The longest prefix of radix-10 digits, and its value. *)
Fixpoint digits_prefix (s : jsstring) : jsstring :=
  match s with
  | c :: s' => if isDigit c then c :: digits_prefix s' else []
  | [] => []
  end.

Definition digits_value (ds : jsstring) : Z :=
  fold_left (fun acc d => (10 * acc + (Z.of_N d - 48))%Z) ds 0%Z.

(** ECMA-262 parseInt with radix 10: strip leading white space, read an
    optional sign, take the longest run of decimal digits; no digits
    gives NaN, otherwise the signed value as a Number.  (Radix 10 never
    strips a hexadecimal prefix.  ECMA-262 lets an implementation
    replace digits after the twentieth by zeros; the exact value is
    kept here.) *)
Definition parseInt10 (s : jsstring) : number :=
  let S := trimStart s in
  let sign : Z :=
    match S with
    | c :: _ => if N.eqb c MINUS then (-1)%Z else 1%Z
    | [] => 1%Z
    end in
  let S' :=
    match S with
    | c :: rest => if N.eqb c PLUS || N.eqb c MINUS then rest else S
    | [] => S
    end in
  match digits_prefix S' with
  | [] => NaN
  | ds => Number_of_Z (sign * digits_value ds)
  end.

(** ** Query parameters

    [URLSearchParams] keeps the pairs of the query string in order;
    [get] returns the first value stored under a name, or null. *)

Definition URLSearchParams := list (jsstring * jsstring).

Fixpoint get (searchParams : URLSearchParams) (name : jsstring)
  : option jsstring :=
  match searchParams with
  | [] => None
  | (k, v) :: rest => if jseqb k name then Some v else get rest name
  end.

(** ** parseExpiresInSeconds *)

Definition DEFAULT_EXPIRES_IN_SECONDS : number :=
  Finite (60 * 60 * 24 * 365).
Definition MAX_EXPIRES_IN_SECONDS : number :=
  Finite (60 * 60 * 24 * 365).

Definition parseExpiresInSeconds (searchParams : URLSearchParams) : number :=
  let secondsParam := get searchParams (str "expiresInSeconds") in
  let from_seconds :=
    match secondsParam with
    | Some (c :: s) =>
        let parsed := parseInt10 (c :: s) in
        if isFinite parsed && num_gtb parsed (Finite 0)
        then Some (Math_min parsed MAX_EXPIRES_IN_SECONDS)
        else None
    | _ => None
    end in
  match from_seconds with
  | Some r => r
  | None =>
      let daysParam := get searchParams (str "expiresInDays") in
      let from_days :=
        match daysParam with
        | Some (c :: s) =>
            let parsed := parseInt10 (c :: s) in
            if isFinite parsed && num_gtb parsed (Finite 0)
            then Some (Math_min
                         (num_mul (num_mul (num_mul parsed (Finite 24))
                                           (Finite 60)) (Finite 60))
                         MAX_EXPIRES_IN_SECONDS)
            else None
        | _ => None
        end in
      match from_days with
      | Some r => r
      | None => DEFAULT_EXPIRES_IN_SECONDS
      end
  end.

(** ** isAuthorized *)

(** The two variables of [process.env] that the handlers read;
    [None] is an unset variable. *)
Record ProcessEnv : Type := {
  NODE_ENV : option jsstring;
  CAMPAIGN_EXPORT_SECRET : option jsstring
}.

Definition isAuthorized (env : ProcessEnv) (secret : option jsstring) : bool :=
  if strict_eq (NODE_ENV env) (Some (str "development")) then true
  else
    let exportSecret := CAMPAIGN_EXPORT_SECRET env in
    if negb (truthy exportSecret) then false
    else strict_eq secret exportSecret.

(** ** The outside world of a request *)

(** What [storage.from(bucket).createSignedUrl(key, expiresIn)] resolves
    to: [{ data, error }], one of which is null. *)
Record SignedData : Type := { signedUrl : jsstring }.
Record StorageError : Type := { message : jsstring }.
Record SignResponse : Type := {
  sign_data : option SignedData;
  sign_error : option StorageError
}.

(** What the table query resolves to; the error object is only tested
    for presence and logged. *)
Record QueryResponse (Row : Type) : Type := {
  data : option (list Row);
  error : option jsstring
}.

(** Everything a handler reads from outside itself:
    - [toLowerCase]: the host's [String.prototype.toLowerCase] (Unicode
      case tables are not reproduced here);
    - [process_env]: the process environment;
    - [select_eq_order table columns column value]: the rows of [table]
      whose [column] equals [value], newest first, as the store returns
      them;
    - [createSignedUrl i bucket key expiresIn]: the store's answer to the
      request issued for the [i]-th retained row (two requests for one
      key may be answered differently; the client resolves to an answer
      object, a rejected promise is outside this model);
    - [toISOString_now]: [new Date().toISOString()] at response time. *)
Record World (Row : Type) : Type := {
  toLowerCase : jsstring -> jsstring;
  process_env : ProcessEnv;
  select_eq_order : jsstring -> jsstring -> jsstring -> jsstring
                    -> QueryResponse Row;
  createSignedUrl : nat -> jsstring -> jsstring -> number -> SignResponse;
  toISOString_now : jsstring
}.

(** Calls and log lines a handler issues.  Row callbacks run
    concurrently; their effects are listed row by row, in row order. *)
Inductive effect : Type :=
| Query (table columns column value : jsstring)
| CreateSignedUrl (bucket key : jsstring) (expiresIn : number)
| ConsoleWarn (tag id msg : jsstring)
| ConsoleError (tag : jsstring).

Definition is_store_call (e : effect) : bool :=
  match e with
  | CreateSignedUrl _ _ _ => true
  | _ => false
  end.

Module NextResponse.

Inductive Body : Type :=
| Json_error (error : jsstring)   (* the object with the one key error *)
| Text (content : jsstring).

Record t : Type := {
  body : Body;
  status : Z;
  headers : list (jsstring * jsstring)
}.

(** [NextResponse.json({ error }, { status })]. *)
Definition json (error : jsstring) (status : Z) : t :=
  {| body := Json_error error; status := status; headers := [] |}.

Fixpoint header (hs : list (jsstring * jsstring)) (name : jsstring)
  : option jsstring :=
  match hs with
  | [] => None
  | (k, v) :: rest => if jseqb k name then Some v else header rest name
  end.

End NextResponse.

Record Request : Type := { searchParams : URLSearchParams }.

(** [array.map(f)] where the callback also receives the index. *)
Fixpoint mapi_from (A B : Type) (f : nat -> A -> B) (i : nat) (l : list A)
  : list B :=
  match l with
  | [] => []
  | a :: l' => f i a :: mapi_from f (S i) l'
  end.

(** [iso.split(T)[0]] for the one-letter separator T: the text before
    the first T. *)
Fixpoint before_T (s : jsstring) : jsstring :=
  match s with
  | [] => []
  | c :: s' => if N.eqb c 84 then [] else c :: before_T s'
  end.

(** [row.field?.trim() || empty]. *)
Definition trimmed_or_empty (ref : option jsstring) : jsstring :=
  or_else (option_map trim ref) [].

(** The filter callback [ref && ref.trim() !== empty]. *)
Definition has_reference (ref : option jsstring) : bool :=
  match ref with
  | Some s => truthy (Some s) && negb (jseqb (trim s) [])
  | None => false
  end.

(** The [if (cvKey)] statement of the row callback, the same in both
    handlers up to the log tag: the download URL, the error text and the
    effects of resolving one key. *)
Definition resolve_cv (Row : Type) (w : World Row) (tag id : jsstring)
    (i : nat) (bucket cvKey : jsstring) (expiresInSeconds : number)
  : jsstring * jsstring * list effect :=
  match cvKey with
  | [] => ([], [], [])
  | _ :: _ =>
      if startsWith cvKey (str "http://") || startsWith cvKey (str "https://")
      then (cvKey, [], [])
      else
        let r := createSignedUrl w i bucket cvKey expiresInSeconds in
        match sign_error r with
        | Some signError =>
            ([], message signError,
             [CreateSignedUrl bucket cvKey expiresInSeconds;
              ConsoleWarn tag id (message signError)])
        | None =>
            (or_else (option_map signedUrl (sign_data r)) [], [],
             [CreateSignedUrl bucket cvKey expiresInSeconds])
        end
  end.

(** [row[header]] on an object given by its entries. *)
Fixpoint property (entries : list (jsstring * jsstring)) (key : jsstring)
  : jsvalue :=
  match entries with
  | [] => VUndefined
  | (k, v) :: rest => if jseqb k key then VString v else property rest key
  end.

(** Lines 155-162 of the handler: the header line and one line per
    result, joined by line feeds. *)
Definition csv_line (headers : list jsstring)
    (entries : list (jsstring * jsstring)) : jsstring :=
  join [COMMA] (map (fun header => csvEscape (property entries header)) headers).

Definition csvLines (headers : list jsstring)
    (results : list (list (jsstring * jsstring))) : list jsstring :=
  join [COMMA] headers :: map (csv_line headers) results.

Definition csvContent (headers : list jsstring)
    (results : list (list (jsstring * jsstring))) : jsstring :=
  join [LF] (csvLines headers results).

Definition content_disposition (filename : jsstring) : jsstring :=
  str "attachment; filename=" ++ [DQUOTE] ++ filename ++ [DQUOTE].

(** ** src/app/api/candidates/cvs/route.ts *)

Module CandidatesRoute.

Definition DEFAULT_ROLE : jsstring := str "elektriker".

Record CandidateRow : Type := {
  id : jsstring;
  name : option jsstring;
  email : option jsstring;
  phone : option jsstring;
  primary_role : option jsstring;
  status : option jsstring;
  created_at : option jsstring;
  cv_key : option jsstring
}.

(** The object literal returned by the row callback. *)
Module ExportRow.
Record t : Type := {
  candidate_id : jsstring;
  name : jsstring;
  email : jsstring;
  phone : jsstring;
  role : jsstring;
  status : jsstring;
  created_at : jsstring;
  cv_key : jsstring;
  cv_download_url : jsstring;
  cv_error : jsstring
}.

Definition entries (r : t) : list (jsstring * jsstring) :=
  [ (str "candidate_id", candidate_id r);
    (str "name", name r);
    (str "email", email r);
    (str "phone", phone r);
    (str "role", role r);
    (str "status", status r);
    (str "created_at", created_at r);
    (str "cv_key", cv_key r);
    (str "cv_download_url", cv_download_url r);
    (str "cv_error", cv_error r) ].
End ExportRow.

Definition TAG : jsstring := str "[CANDIDATE_CV_EXPORT]".

(** Lines 69-71. *)
Definition role_of (w : World CandidateRow) (sp : URLSearchParams)
  : jsstring :=
  toLowerCase w
    (trim (or_else (or_opt (get sp (str "role")) (get sp (str "position")))
                   DEFAULT_ROLE)).

(** Line 76. *)
Definition includeMissing_of (sp : URLSearchParams) : bool :=
  strict_eq (get sp (str "includeMissing")) (Some (str "true")).

(** Line 77. *)
Definition bucket_of (sp : URLSearchParams) : jsstring :=
  trim (or_else (get sp (str "bucket")) (str "candidate-cvs")).

(** Lines 81-85. *)
Definition fetch (w : World CandidateRow) (role : jsstring)
  : QueryResponse CandidateRow :=
  select_eq_order w (str "candidates")
    (str "id, name, email, phone, primary_role, status, created_at, cv_key")
    (str "primary_role") role.

Definition fetch_effect (role : jsstring) : effect :=
  Query (str "candidates")
    (str "id, name, email, phone, primary_role, status, created_at, cv_key")
    (str "primary_role") role.

(** Line 95. *)
Definition candidates_of (q : QueryResponse CandidateRow)
  : list CandidateRow :=
  match data q with
  | Some rows => rows
  | None => []
  end.

(** Lines 96-98. *)
Definition filtered_of (includeMissing : bool)
    (candidates : list CandidateRow) : list CandidateRow :=
  if includeMissing then candidates
  else filter (fun candidate => has_reference (cv_key candidate)) candidates.

(** Lines 101-139: the callback run for the [i]-th retained row. *)
Definition export_row (w : World CandidateRow) (bucket : jsstring)
    (expiresInSeconds : number) (role : jsstring)
    (i : nat) (candidate : CandidateRow) : ExportRow.t * list effect :=
  let cvKey := trimmed_or_empty (cv_key candidate) in
  let '(cvDownloadUrl, cvError, effects) :=
    resolve_cv w TAG (id candidate) i bucket cvKey expiresInSeconds in
  ({| ExportRow.candidate_id := id candidate;
      ExportRow.name := or_else (name candidate) [];
      ExportRow.email := or_else (email candidate) [];
      ExportRow.phone := or_else (phone candidate) [];
      ExportRow.role := or_else (primary_role candidate) role;
      ExportRow.status := or_else (status candidate) [];
      ExportRow.created_at := or_else (created_at candidate) [];
      ExportRow.cv_key := cvKey;
      ExportRow.cv_download_url := cvDownloadUrl;
      ExportRow.cv_error := cvError |},
   effects).

(** Lines 100-140. *)
Definition results_of (w : World CandidateRow) (bucket : jsstring)
    (expiresInSeconds : number) (role : jsstring)
    (filtered : list CandidateRow) : list (ExportRow.t * list effect) :=
  mapi_from (export_row w bucket expiresInSeconds role) 0 filtered.

Definition headers : list jsstring :=
  [ str "candidate_id"; str "name"; str "email"; str "phone"; str "role";
    str "status"; str "created_at"; str "cv_key"; str "cv_download_url";
    str "cv_error" ].

(** Lines 163-175. *)
Definition ok_response (w : World CandidateRow) (role : jsstring)
    (candidates : list CandidateRow) (results : list ExportRow.t)
  : NextResponse.t :=
  let csvContent := csvContent headers (map ExportRow.entries results) in
  let dateStamp := before_T (toISOString_now w) in
  let filename :=
    str "candidates-" ++ role ++ str "-cvs-" ++ dateStamp ++ str ".csv" in
  {| NextResponse.body := NextResponse.Text csvContent;
     NextResponse.status := 200;
     NextResponse.headers :=
       [ (str "Content-Type", str "text/csv; charset=utf-8");
         (str "Content-Disposition", content_disposition filename);
         (str "Cache-Control", str "no-store, no-cache, must-revalidate");
         (str "X-Total-Candidates", nat_toString (length candidates));
         (str "X-Total-Exported", nat_toString (length results)) ] |}.

(** The handler: the response together with the effects issued. *)
Definition GET (w : World CandidateRow) (request : Request)
  : NextResponse.t * list effect :=
  let searchParams := searchParams request in
  let secret := get searchParams (str "secret") in
  if negb (isAuthorized (process_env w) secret) then
    (NextResponse.json (str "Forbidden") 403, [])
  else
    let role := role_of w searchParams in
    match role with
    | [] => (NextResponse.json (str "Missing role") 400, [])
    | _ :: _ =>
        let includeMissing := includeMissing_of searchParams in
        let bucket := bucket_of searchParams in
        let expiresInSeconds := parseExpiresInSeconds searchParams in
        let q := fetch w role in
        match error q with
        | Some _ =>
            (NextResponse.json (str "Kunne ikke hente kandidater") 500,
             [fetch_effect role; ConsoleError TAG])
        | None =>
            let candidates := candidates_of q in
            let filtered := filtered_of includeMissing candidates in
            let results :=
              results_of w bucket expiresInSeconds role filtered in
            (ok_response w role candidates (map fst results),
             fetch_effect role :: concat (map snd results))
        end
    end.

End CandidatesRoute.

(** ** The campaign-applications handler (second source file) *)

Module CampaignRoute.

Definition DEFAULT_POSITION : jsstring := str "elektriker".

Record CampaignApplicationRow : Type := {
  id : jsstring;
  name : option jsstring;
  email : option jsstring;
  phone : option jsstring;
  position : option jsstring;
  segment : option jsstring;
  status : option jsstring;
  created_at : option jsstring;
  cv_url : option jsstring;
  cv_filename : option jsstring
}.

(** The object literal returned by the row callback. *)
Module ExportRow.
Record t : Type := {
  application_id : jsstring;
  name : jsstring;
  email : jsstring;
  phone : jsstring;
  position : jsstring;
  segment : jsstring;
  status : jsstring;
  created_at : jsstring;
  cv_key : jsstring;
  cv_filename : jsstring;
  cv_download_url : jsstring;
  cv_error : jsstring
}.

Definition entries (r : t) : list (jsstring * jsstring) :=
  [ (str "application_id", application_id r);
    (str "name", name r);
    (str "email", email r);
    (str "phone", phone r);
    (str "position", position r);
    (str "segment", segment r);
    (str "status", status r);
    (str "created_at", created_at r);
    (str "cv_key", cv_key r);
    (str "cv_filename", cv_filename r);
    (str "cv_download_url", cv_download_url r);
    (str "cv_error", cv_error r) ].
End ExportRow.

Definition TAG : jsstring := str "[CAMPAIGN_CV_EXPORT]".

(** Line 71. *)
Definition position_of (w : World CampaignApplicationRow)
    (sp : URLSearchParams) : jsstring :=
  toLowerCase w
    (trim (or_else (get sp (str "position")) DEFAULT_POSITION)).

(** Line 76. *)
Definition includeMissing_of (sp : URLSearchParams) : bool :=
  strict_eq (get sp (str "includeMissing")) (Some (str "true")).

(** Line 77. *)
Definition bucket_of (sp : URLSearchParams) : jsstring :=
  trim (or_else (get sp (str "bucket")) (str "candidate-cvs")).

Definition COLUMNS : jsstring :=
  str "id, name, email, phone, position, segment, status, created_at, cv_url, cv_filename".

(** Lines 81-87. *)
Definition fetch (w : World CampaignApplicationRow) (position : jsstring)
  : QueryResponse CampaignApplicationRow :=
  select_eq_order w (str "campaign_applications") COLUMNS
    (str "position") position.

Definition fetch_effect (position : jsstring) : effect :=
  Query (str "campaign_applications") COLUMNS (str "position") position.

(** Line 97. *)
Definition applications_of (q : QueryResponse CampaignApplicationRow)
  : list CampaignApplicationRow :=
  match data q with
  | Some rows => rows
  | None => []
  end.

(** Lines 98-100. *)
Definition filtered_of (includeMissing : bool)
    (applications : list CampaignApplicationRow)
  : list CampaignApplicationRow :=
  if includeMissing then applications
  else filter (fun app => has_reference (cv_url app)) applications.

(** Lines 103-143: the callback run for the [i]-th retained row. *)
Definition export_row (w : World CampaignApplicationRow)
    (bucket : jsstring) (expiresInSeconds : number) (position : jsstring)
    (i : nat) (application : CampaignApplicationRow)
  : ExportRow.t * list effect :=
  let cvKey := trimmed_or_empty (cv_url application) in
  let '(cvDownloadUrl, cvError, effects) :=
    resolve_cv w TAG (id application) i bucket cvKey expiresInSeconds in
  ({| ExportRow.application_id := id application;
      ExportRow.name := or_else (name application) [];
      ExportRow.email := or_else (email application) [];
      ExportRow.phone := or_else (phone application) [];
      ExportRow.position := or_else (CampaignRoute.position application)
                                    position;
      ExportRow.segment := or_else (segment application) [];
      ExportRow.status := or_else (status application) [];
      ExportRow.created_at := or_else (created_at application) [];
      ExportRow.cv_key := cvKey;
      ExportRow.cv_filename := or_else (cv_filename application) [];
      ExportRow.cv_download_url := cvDownloadUrl;
      ExportRow.cv_error := cvError |},
   effects).

(** Lines 102-144. *)
Definition results_of (w : World CampaignApplicationRow)
    (bucket : jsstring) (expiresInSeconds : number) (position : jsstring)
    (filtered : list CampaignApplicationRow)
  : list (ExportRow.t * list effect) :=
  mapi_from (export_row w bucket expiresInSeconds position) 0 filtered.

Definition headers : list jsstring :=
  [ str "application_id"; str "name"; str "email"; str "phone";
    str "position"; str "segment"; str "status"; str "created_at";
    str "cv_key"; str "cv_filename"; str "cv_download_url";
    str "cv_error" ].

(** Lines 168-181. *)
Definition ok_response (w : World CampaignApplicationRow)
    (position : jsstring) (applications : list CampaignApplicationRow)
    (results : list ExportRow.t) : NextResponse.t :=
  let csvContent := csvContent headers (map ExportRow.entries results) in
  let dateStamp := before_T (toISOString_now w) in
  let filename :=
    str "campaign-" ++ position ++ str "-cvs-" ++ dateStamp ++ str ".csv" in
  {| NextResponse.body := NextResponse.Text csvContent;
     NextResponse.status := 200;
     NextResponse.headers :=
       [ (str "Content-Type", str "text/csv; charset=utf-8");
         (str "Content-Disposition", content_disposition filename);
         (str "Cache-Control", str "no-store, no-cache, must-revalidate");
         (str "X-Total-Applications", nat_toString (length applications));
         (str "X-Total-Exported", nat_toString (length results)) ] |}.

(** The handler: the response together with the effects issued. *)
Definition GET (w : World CampaignApplicationRow) (request : Request)
  : NextResponse.t * list effect :=
  let searchParams := searchParams request in
  let secret := get searchParams (str "secret") in
  if negb (isAuthorized (process_env w) secret) then
    (NextResponse.json (str "Forbidden") 403, [])
  else
    let position := position_of w searchParams in
    match position with
    | [] => (NextResponse.json (str "Missing position") 400, [])
    | _ :: _ =>
        let includeMissing := includeMissing_of searchParams in
        let bucket := bucket_of searchParams in
        let expiresInSeconds := parseExpiresInSeconds searchParams in
        let q := fetch w position in
        match error q with
        | Some _ =>
            (NextResponse.json (str "Kunne ikke hente kampanjesoknader") 500,
             [fetch_effect position; ConsoleError TAG])
        | None =>
            let applications := applications_of q in
            let filtered := filtered_of includeMissing applications in
            let results :=
              results_of w bucket expiresInSeconds position filtered in
            (ok_response w position applications (map fst results),
             fetch_effect position :: concat (map snd results))
        end
    end.

End CampaignRoute.


(** ** Notions of the specification, stated independently of the code *)

(** A file reference is blank when it is null, empty, or made of white
    space only. *)
Definition blank (ref : option jsstring) : bool :=
  match ref with
  | None => true
  | Some s => forallb isWhiteSpace s
  end.

(** A parameter that parses to a finite integer greater than zero. *)
Definition positive_integer (param : option jsstring) : option Z :=
  match param with
  | None => None
  | Some s =>
      match parseInt10 s with
      | Finite z => if (0 <? z)%Z then Some z else None
      | _ => None
      end
  end.

(** The resolution order of the expiry, in the words of the
    specification; the cap is 31536000 seconds. *)
Definition expiry_cap : Z := 31536000.

Definition resolved_expiry (seconds days : option jsstring) : Z :=
  match positive_integer seconds with
  | Some n => Z.min n expiry_cap
  | None =>
      match positive_integer days with
      | Some d => Z.min (d * 86400) expiry_cap
      | None => expiry_cap
      end
  end.

(** Every double quote doubled. *)
Definition quotes_doubled (s : jsstring) : jsstring :=
  flat_map (fun c => if N.eqb c DQUOTE then [DQUOTE; DQUOTE] else [c]) s.

(** A secret counts as configured when the variable is set to a
    non-empty string. *)
Definition configured_secret (env : ProcessEnv) : option jsstring :=
  match CAMPAIGN_EXPORT_SECRET env with
  | Some (c :: s) => Some (c :: s)
  | _ => None
  end.

Definition development_mode (env : ProcessEnv) : Prop :=
  NODE_ENV env = Some (str "development").

(** [reads_integer s z]: the string reads, as parseInt sees it, as
    optional white space, an optional sign, a non-empty run of decimal
    digits of signed value [z], and then any text that does not go on
    with a digit. *)
Definition reads_integer (s : jsstring) (z : Z) : Prop :=
  exists ws sgn ds rest : jsstring,
    s = ws ++ sgn ++ ds ++ rest /\
    forallb isWhiteSpace ws = true /\
    ds <> [] /\
    forallb isDigit ds = true /\
    match rest with c :: _ => isDigit c = false | [] => True end /\
    ((sgn = [] \/ sgn = [PLUS]) /\ z = digits_value ds \/
     sgn = [MINUS] /\ z = (- digits_value ds)%Z).

(** Lower-casing of the ASCII letters, every other code unit kept. *)
Definition toLowerCase_ascii (s : jsstring) : jsstring :=
  map (fun c => if ((65 <=? c) && (c <=? 90))%N then (c + 32)%N else c) s.

(** What is assumed of the host's [toLowerCase]: only the empty string
    lower-cases to the empty string, and on a string of ASCII code
    units it is the ASCII lower-casing. *)
Definition lawful_toLowerCase (f : jsstring -> jsstring) : Prop :=
  (forall s, f s = [] <-> s = []) /\
  (forall s, forallb (fun c => (c <? 128)%N) s = true ->
             f s = toLowerCase_ascii s).

(** A query string with every pair of one name removed: the parameter
    made absent. *)
Definition without (name : jsstring) (sp : URLSearchParams)
  : URLSearchParams :=
  filter (fun kv => negb (jseqb (fst kv) name)) sp.

(** The key needs a signed URL: it is not empty and carries no http or
    https scheme. *)
Definition needs_signing (key : jsstring) : Prop :=
  key <> [] /\
  startsWith key (str "http://") = false /\
  startsWith key (str "https://") = false.

Definition store_calls (effects : list effect) : list effect :=
  filter is_store_call effects.

(** *** Records of a CSV document

    A line feed ends a record unless it stands inside a quoted field; a
    double quote opens or closes a quoted field (a doubled quote closes
    and reopens it). *)
Fixpoint record_breaks (quoted : bool) (s : jsstring) : nat :=
  match s with
  | [] => 0
  | c :: s' =>
      if N.eqb c DQUOTE then record_breaks (negb quoted) s'
      else if N.eqb c LF && negb quoted then S (record_breaks quoted s')
      else record_breaks quoted s'
  end.

Fixpoint end_quoted (quoted : bool) (s : jsstring) : bool :=
  match s with
  | [] => quoted
  | c :: s' => end_quoted (if N.eqb c DQUOTE then negb quoted else quoted) s'
  end.



(** *** The stages of a request, candidates endpoint *)

Definition cand_role (w : World CandidatesRoute.CandidateRow) (req : Request)
  : jsstring :=
  CandidatesRoute.role_of w (searchParams req).

Definition cand_fetched (w : World CandidatesRoute.CandidateRow)
    (req : Request) : list CandidatesRoute.CandidateRow :=
  CandidatesRoute.candidates_of (CandidatesRoute.fetch w (cand_role w req)).

Definition cand_retained (w : World CandidatesRoute.CandidateRow)
    (req : Request) : list CandidatesRoute.CandidateRow :=
  CandidatesRoute.filtered_of
    (CandidatesRoute.includeMissing_of (searchParams req))
    (cand_fetched w req).

Definition cand_results (w : World CandidatesRoute.CandidateRow)
    (req : Request) : list (CandidatesRoute.ExportRow.t * list effect) :=
  CandidatesRoute.results_of w
    (CandidatesRoute.bucket_of (searchParams req))
    (parseExpiresInSeconds (searchParams req))
    (cand_role w req) (cand_retained w req).

Definition cand_exported (w : World CandidatesRoute.CandidateRow)
    (req : Request) : list CandidatesRoute.ExportRow.t :=
  map fst (cand_results w req).


(** No request-level error: authorized, a role, rows fetched. *)
Definition cand_reaches_rows (w : World CandidatesRoute.CandidateRow)
    (req : Request) : Prop :=
  isAuthorized (process_env w) (get (searchParams req) (str "secret")) = true /\
  cand_role w req <> [] /\
  error (CandidatesRoute.fetch w (cand_role w req)) = None.

(** *** The stages of a request, campaign endpoint *)

Definition camp_position (w : World CampaignRoute.CampaignApplicationRow)
    (req : Request) : jsstring :=
  CampaignRoute.position_of w (searchParams req).

Definition camp_fetched (w : World CampaignRoute.CampaignApplicationRow)
    (req : Request) : list CampaignRoute.CampaignApplicationRow :=
  CampaignRoute.applications_of
    (CampaignRoute.fetch w (camp_position w req)).

Definition camp_retained (w : World CampaignRoute.CampaignApplicationRow)
    (req : Request) : list CampaignRoute.CampaignApplicationRow :=
  CampaignRoute.filtered_of
    (CampaignRoute.includeMissing_of (searchParams req))
    (camp_fetched w req).

Definition camp_results (w : World CampaignRoute.CampaignApplicationRow)
    (req : Request) : list (CampaignRoute.ExportRow.t * list effect) :=
  CampaignRoute.results_of w
    (CampaignRoute.bucket_of (searchParams req))
    (parseExpiresInSeconds (searchParams req))
    (camp_position w req) (camp_retained w req).

Definition camp_exported (w : World CampaignRoute.CampaignApplicationRow)
    (req : Request) : list CampaignRoute.ExportRow.t :=
  map fst (camp_results w req).


Definition camp_reaches_rows (w : World CampaignRoute.CampaignApplicationRow)
    (req : Request) : Prop :=
  isAuthorized (process_env w) (get (searchParams req) (str "secret")) = true /\
  camp_position w req <> [] /\
  error (CampaignRoute.fetch w (camp_position w req)) = None.


(** The parameter value the handlers normalize: the first non-empty one
    of the named parameters, else the default. *)
Definition supplied_or_default (supplied : list (option jsstring))
    (default : jsstring) : jsstring :=
  fold_right (fun p acc => match p with
                           | Some (c :: s) => c :: s
                           | _ => acc
                           end) default supplied.

(** The first non-empty one of the named parameters, if any. *)
Definition first_supplied (supplied : list (option jsstring))
  : option jsstring :=
  fold_right (fun p acc => match p with
                           | Some (c :: s) => Some (c :: s)
                           | _ => acc
                           end) None supplied.

(** ** Sample inputs *)

(** The configuration of the specification's example: production, the
    configured secret abc. *)
Definition env_abc : ProcessEnv :=
  {| NODE_ENV := Some (str "production");
     CAMPAIGN_EXPORT_SECRET := Some (str "abc") |}.

Definition cand_row (ident : string) (key : option jsstring)
  : CandidatesRoute.CandidateRow :=
  {| CandidatesRoute.id := str ident;
     CandidatesRoute.name := Some (str "Kari Nordmann");
     CandidatesRoute.email := Some (str "kari@example.no");
     CandidatesRoute.phone := None;
     CandidatesRoute.primary_role := None;
     CandidatesRoute.status := Some (str "new");
     CandidatesRoute.created_at := Some (str "2025-01-02T03:04:05Z");
     CandidatesRoute.cv_key := key |}.

Definition camp_row (ident : string) (key : option jsstring)
  : CampaignRoute.CampaignApplicationRow :=
  {| CampaignRoute.id := str ident;
     CampaignRoute.name := Some (str "Ola Nordmann");
     CampaignRoute.email := Some (str "ola@example.no");
     CampaignRoute.phone := None;
     CampaignRoute.position := Some (str "elektriker");
     CampaignRoute.segment := None;
     CampaignRoute.status := Some (str "new");
     CampaignRoute.created_at := Some (str "2025-01-02T03:04:05Z");
     CampaignRoute.cv_url := key;
     CampaignRoute.cv_filename := Some (str "cv.pdf") |}.

(** A store that has every object but missing.pdf. *)
Definition sample_store (i : nat) (bucket key : jsstring) (expiresIn : number)
  : SignResponse :=
  if jseqb key (str "missing.pdf")
  then {| sign_data := None;
          sign_error := Some {| message := str "Object not found" |} |}
  else {| sign_data :=
            Some {| signedUrl := str "https://store.example/" ++ bucket
                                   ++ str "/" ++ key ++ str "?token=t" |};
          sign_error := None |}.

(** A production world whose table holds the given rows. *)
Definition sample_world (Row : Type) (rows : list Row) : World Row :=
  {| toLowerCase := toLowerCase_ascii;
     process_env := env_abc;
     select_eq_order := fun _ _ _ _ => {| data := Some rows; error := None |};
     createSignedUrl := sample_store;
     toISOString_now := str "2025-03-04T05:06:07.000Z" |}.



(** A request carrying the right secret and the given other pairs. *)
Definition request_with (extra : URLSearchParams) : Request :=
  {| searchParams := (str "secret", str "abc") :: extra |}.

(** An absolute URL followed by one space. *)
Definition padded_url : jsstring := str "https://host/file.pdf ".

(** Two rows: the object of the first is missing from the store, the
    object of the second is there. *)
Definition two_candidates : list CandidatesRoute.CandidateRow :=
  [cand_row "c1" (Some (str "missing.pdf")); cand_row "c2" (Some (str "abc.pdf"))].

Definition two_applications : list CampaignRoute.CampaignApplicationRow :=
  [camp_row "a1" (Some (str "missing.pdf")); camp_row "a2" (Some (str "abc.pdf"))].

(** Two fetched rows, one with a file reference and one without. *)
Definition one_blank_candidate : list CandidatesRoute.CandidateRow :=
  [cand_row "c1" (Some (str "abc.pdf")); cand_row "c2" (Some [])].

Definition one_blank_application
  : list CampaignRoute.CampaignApplicationRow :=
  [camp_row "a1" (Some (str "abc.pdf")); camp_row "a2" (Some [])].

(** The digit one followed by 309 zeros: ten to the power 309, past
    the largest finite double. *)
Definition huge_digits : jsstring := 49%N :: repeat 48%N 309.

(** ** Reading a CSV document back

    A reader of the documents the handlers write: records are split at
    line feeds outside quoted fields, fields at commas outside quoted
    fields, and a field that opens with a double quote is read up to its
    closing quote with every doubled quote read as one. *)

Definition push_head (c : code_unit) (pieces : list jsstring)
  : list jsstring :=
  match pieces with
  | p :: ps => (c :: p) :: ps
  | [] => [[c]]
  end.

Fixpoint split_on (sep : code_unit) (quoted : bool) (s : jsstring)
  : list jsstring :=
  match s with
  | [] => [[]]
  | c :: s' =>
      if N.eqb c DQUOTE then push_head c (split_on sep (negb quoted) s')
      else if N.eqb c sep && negb quoted then [] :: split_on sep quoted s'
      else push_head c (split_on sep quoted s')
  end.

(** The text of a quoted field, read from just after its opening
    quote. *)
Fixpoint unquote (s : jsstring) : jsstring :=
  match s with
  | [] => []
  | c :: s' =>
      if N.eqb c DQUOTE then
        match s' with
        | d :: s'' => if N.eqb d DQUOTE then DQUOTE :: unquote s'' else []
        | [] => []
        end
      else c :: unquote s'
  end.

Definition csvUnescape (cell : jsstring) : jsstring :=
  match cell with
  | c :: rest => if N.eqb c DQUOTE then unquote rest else cell
  | [] => []
  end.

Definition parse_record (line : jsstring) : list jsstring :=
  map csvUnescape (split_on COMMA false line).

Definition parse_csv (content : jsstring) : list (list jsstring) :=
  map parse_record (split_on LF false content).

(** The text a value stands for in a cell. *)
Definition field_text (v : jsvalue) : jsstring :=
  match v with
  | VNull | VUndefined => []
  | VString s => s
  | VOther r => r
  end.

(** Occurrences of a separator outside quoted fields. *)
Fixpoint sep_count (sep : code_unit) (quoted : bool) (s : jsstring) : nat :=
  match s with
  | [] => 0
  | c :: s' =>
      if N.eqb c DQUOTE then sep_count sep (negb quoted) s'
      else if N.eqb c sep && negb quoted then S (sep_count sep quoted s')
      else sep_count sep quoted s'
  end.

(** A piece of text is sealed against a separator when it closes every
    quote it opens and holds the separator inside quoted fields only. *)
Definition sealed (sep : code_unit) (s : jsstring) : Prop :=
  end_quoted false s = false /\ sep_count sep false s = 0.

(** The fields of an exported row, in header order. *)
Definition cand_fields (x : CandidatesRoute.ExportRow.t) : list jsstring :=
  [ CandidatesRoute.ExportRow.candidate_id x;
    CandidatesRoute.ExportRow.name x;
    CandidatesRoute.ExportRow.email x;
    CandidatesRoute.ExportRow.phone x;
    CandidatesRoute.ExportRow.role x;
    CandidatesRoute.ExportRow.status x;
    CandidatesRoute.ExportRow.created_at x;
    CandidatesRoute.ExportRow.cv_key x;
    CandidatesRoute.ExportRow.cv_download_url x;
    CandidatesRoute.ExportRow.cv_error x ].

Definition camp_fields (x : CampaignRoute.ExportRow.t) : list jsstring :=
  [ CampaignRoute.ExportRow.application_id x;
    CampaignRoute.ExportRow.name x;
    CampaignRoute.ExportRow.email x;
    CampaignRoute.ExportRow.phone x;
    CampaignRoute.ExportRow.position x;
    CampaignRoute.ExportRow.segment x;
    CampaignRoute.ExportRow.status x;
    CampaignRoute.ExportRow.created_at x;
    CampaignRoute.ExportRow.cv_key x;
    CampaignRoute.ExportRow.cv_filename x;
    CampaignRoute.ExportRow.cv_download_url x;
    CampaignRoute.ExportRow.cv_error x ].

(** ** Further notions on the trace of a request *)

(** [needs_signing] as a test. *)
Definition needs_signingb (key : jsstring) : bool :=
  match key with
  | [] => false
  | _ :: _ =>
      negb (startsWith key (str "http://") || startsWith key (str "https://"))
  end.

Definition is_warning (e : effect) : bool :=
  match e with
  | ConsoleWarn _ _ _ => true
  | _ => false
  end.

(** The names of the query parameters each handler reads. *)
Definition cand_read_names : list jsstring :=
  [ str "secret"; str "role"; str "position"; str "includeMissing";
    str "bucket"; str "expiresInSeconds"; str "expiresInDays" ].

Definition camp_read_names : list jsstring :=
  [ str "secret"; str "position"; str "includeMissing";
    str "bucket"; str "expiresInSeconds"; str "expiresInDays" ].

(** A world whose table query fails. *)
Definition failing_table_world (Row : Type) : World Row :=
  {| toLowerCase := toLowerCase_ascii;
     process_env := env_abc;
     select_eq_order := fun _ _ _ _ =>
       {| data := None; error := Some (str "connection refused") |};
     createSignedUrl := sample_store;
     toISOString_now := str "2025-03-04T05:06:07.000Z" |}.

(** A candidate whose name holds a quote, a comma and a line feed. *)
Definition tricky_candidates : list CandidatesRoute.CandidateRow :=
  [ {| CandidatesRoute.id := str "c9";
       CandidatesRoute.name :=
         Some (str "Nordmann, " ++ [DQUOTE] ++ str "Kari" ++ [DQUOTE; LF]);
       CandidatesRoute.email := None;
       CandidatesRoute.phone := None;
       CandidatesRoute.primary_role := None;
       CandidatesRoute.status := None;
       CandidatesRoute.created_at := None;
       CandidatesRoute.cv_key := Some (str " abc.pdf ") |} ].

(** Four rows: a key missing from the store, an absolute URL, a blank
    reference and a key the store has. *)
Definition mixed_candidates : list CandidatesRoute.CandidateRow :=
  [ cand_row "c1" (Some (str "missing.pdf"));
    cand_row "c2" (Some (str "https://host/file.pdf"));
    cand_row "c3" (Some (str "  "));
    cand_row "c4" (Some (str " abc.pdf ")) ].

Definition mixed_applications : list CampaignRoute.CampaignApplicationRow :=
  [ camp_row "a1" (Some (str "missing.pdf"));
    camp_row "a2" (Some (str "https://host/file.pdf"));
    camp_row "a3" None;
    camp_row "a4" (Some (str " abc.pdf ")) ].

(** A development world with no secret configured. *)
Definition development_world (Row : Type) (rows : list Row) : World Row :=
  {| toLowerCase := toLowerCase_ascii;
     process_env := {| NODE_ENV := Some (str "development");
                       CAMPAIGN_EXPORT_SECRET := None |};
     select_eq_order := fun _ _ _ _ => {| data := Some rows; error := None |};
     createSignedUrl := sample_store;
     toISOString_now := str "2025-03-04T05:06:07.000Z" |}.

(** A production world with no secret configured. *)
Definition closed_world (Row : Type) (rows : list Row) : World Row :=
  {| toLowerCase := toLowerCase_ascii;
     process_env := {| NODE_ENV := Some (str "production");
                       CAMPAIGN_EXPORT_SECRET := None |};
     select_eq_order := fun _ _ _ _ => {| data := Some rows; error := None |};
     createSignedUrl := sample_store;
     toISOString_now := str "2025-03-04T05:06:07.000Z" |}.

(** ** Proof steps *)

(** Name the three gates of a request that reaches its rows. *)
Ltac split_gates H :=
  let A := fresh "Hauth" in
  let R := fresh "Hrole" in
  let F := fresh "Hfetch" in
  destruct H as [A [R F]].

(** ** Basic facts on strings *)

Lemma jseqb_eq (a b : jsstring) : jseqb a b = true <-> a = b.
Proof.
  revert b; induction a as [|x a IH]; intros [|y b]; simpl;
    try (split; [discriminate | discriminate]); try tauto.
  rewrite andb_true_iff, N.eqb_eq, IH.
  split; [intros [-> ->]; reflexivity | intros E; injection E; auto].
Qed.

Lemma jseqb_refl (a : jsstring) : jseqb a a = true.
Proof. apply jseqb_eq; reflexivity. Qed.

Lemma jseqb_neq (a b : jsstring) : jseqb a b = false <-> a <> b.
Proof.
  rewrite <- jseqb_eq. destruct (jseqb a b); split; congruence.
Qed.

Lemma strict_eq_Some (a : option jsstring) (b : jsstring) :
  strict_eq a (Some b) = true <-> a = Some b.
Proof.
  destruct a as [x|]; simpl.
  - rewrite jseqb_eq. split; congruence.
  - split; discriminate.
Qed.

Lemma trimStart_nil_iff (s : jsstring) :
  trimStart s = [] <-> forallb isWhiteSpace s = true.
Proof.
  induction s as [|c s IH]; simpl.
  - tauto.
  - destruct (isWhiteSpace c); simpl.
    + exact IH.
    + split; discriminate.
Qed.

Lemma trimStart_all_ws (s : jsstring) :
  forallb isWhiteSpace (trimStart s) = forallb isWhiteSpace s.
Proof.
  induction s as [|c s IH]; simpl; [reflexivity|].
  destruct (isWhiteSpace c) eqn:E; simpl; [exact IH | rewrite E; reflexivity].
Qed.

Lemma forallb_rev (A : Type) (f : A -> bool) (l : list A) :
  forallb f (rev l) = forallb f l.
Proof.
  induction l as [|a l IH]; simpl; [reflexivity|].
  rewrite forallb_app, IH; simpl. rewrite andb_true_r, andb_comm. reflexivity.
Qed.

Lemma rev_nil_iff (A : Type) (l : list A) : rev l = [] <-> l = [].
Proof.
  split; intros H.
  - rewrite <- (rev_involutive l), H; reflexivity.
  - subst; reflexivity.
Qed.

(** [trim] returns the empty string exactly on white-space-only input. *)
Lemma trim_nil_iff (s : jsstring) :
  trim s = [] <-> forallb isWhiteSpace s = true.
Proof.
  unfold trim, trimEnd.
  pose proof (rev_nil_iff (trimStart (rev (trimStart s)))) as R.
  pose proof (trimStart_nil_iff (rev (trimStart s))) as T.
  rewrite forallb_rev, trimStart_all_ws in T.
  tauto.
Qed.

Lemma trimmed_or_empty_nil_iff (ref : option jsstring) :
  trimmed_or_empty ref = [] <-> blank ref = true.
Proof.
  unfold trimmed_or_empty, blank. destruct ref as [s|]; simpl.
  - rewrite <- trim_nil_iff. destruct (trim s); split; congruence.
  - tauto.
Qed.

(** On a non-blank reference the key is the trimmed reference. *)
Lemma trimmed_or_empty_Some (s : jsstring) :
  trimmed_or_empty (Some s) = trim s.
Proof.
  unfold trimmed_or_empty; simpl. destruct (trim s); reflexivity.
Qed.

Lemma has_reference_blank (ref : option jsstring) :
  has_reference ref = negb (blank ref).
Proof.
  destruct ref as [s|]; simpl; [|reflexivity].
  destruct (forallb isWhiteSpace s) eqn:E.
  - apply trim_nil_iff in E. rewrite E. simpl. apply andb_false_r.
  - destruct s as [|c s]; [discriminate|]. simpl.
    destruct (jseqb (trim (c :: s)) []) eqn:J; [|reflexivity].
    apply jseqb_eq, trim_nil_iff in J. congruence.
Qed.

(** ** csvEscape *)

Lemma replace_quotes_doubled (s : jsstring) :
  replace_quotes s = quotes_doubled s.
Proof.
  induction s as [|c s IH]; simpl; [reflexivity|].
  destruct (N.eqb c DQUOTE); simpl; rewrite IH; reflexivity.
Qed.

Lemma csv_special_iff (c : code_unit) :
  csv_special c = true <-> c = DQUOTE \/ c = COMMA \/ c = CR \/ c = LF.
Proof.
  unfold csv_special. rewrite !orb_true_iff, !N.eqb_eq. tauto.
Qed.

Lemma test_special_iff (s : jsstring) :
  test_special s = true <->
  exists c, In c s /\ (c = DQUOTE \/ c = COMMA \/ c = CR \/ c = LF).
Proof.
  unfold test_special. rewrite existsb_exists.
  split; intros [c [Hin Hc]]; exists c; split; auto; apply csv_special_iff; auto.
Qed.

(** C5. The CSV encoder returns the empty string for null and for
    undefined; a string holding a double quote, comma, carriage return
    or line feed comes back wrapped in double quotes with every double
    quote inside doubled; a string holding none of them comes back
    unchanged. *)
Theorem csvEscape_contract :
  csvEscape VNull = [] /\
  csvEscape VUndefined = [] /\
  (forall s : jsstring,
      (exists c, In c s /\ (c = DQUOTE \/ c = COMMA \/ c = CR \/ c = LF)) ->
      csvEscape (VString s) = [DQUOTE] ++ quotes_doubled s ++ [DQUOTE]) /\
  (forall s : jsstring,
      (forall c, In c s ->
                 c <> DQUOTE /\ c <> COMMA /\ c <> CR /\ c <> LF) ->
      csvEscape (VString s) = s).
Proof.
  repeat split.
  - intros s Hs. apply test_special_iff in Hs.
    unfold csvEscape; cbn [String_of]. rewrite Hs, replace_quotes_doubled.
    reflexivity.
  - intros s Hs. unfold csvEscape; cbn [String_of].
    destruct (test_special s) eqn:E; [|reflexivity].
    apply test_special_iff in E. destruct E as [c [Hin Hc]].
    specialize (Hs c Hin). tauto.
Qed.

(** The two examples of the specification, and one plain string. *)
Lemma csvEscape_contract_witness :
  csvEscape (VString (str "O'Brien, Jr."))
    = [DQUOTE] ++ str "O'Brien, Jr." ++ [DQUOTE] /\
  csvEscape (VString (str "Say " ++ [DQUOTE] ++ str "hi" ++ [DQUOTE]))
    = [DQUOTE] ++ str "Say " ++ [DQUOTE; DQUOTE] ++ str "hi"
        ++ [DQUOTE; DQUOTE] ++ [DQUOTE] /\
  csvEscape (VString (str "elektriker")) = str "elektriker".
Proof.
  destruct csvEscape_contract as [_ [_ [Hq Hp]]].
  split; [|split].
  - rewrite Hq; [reflexivity|].
    exists COMMA; split; [vm_compute; tauto | tauto].
  - rewrite Hq; [reflexivity|].
    exists DQUOTE; split; [vm_compute; tauto | tauto].
  - apply Hp. intros c Hin. vm_compute in Hin.
    repeat (destruct Hin as [<-|Hin]; [repeat split; discriminate|]).
    contradiction.
Defined.

(** A value that is neither a string, null nor undefined is escaped as
    its [String] rendering is. *)
Lemma csvEscape_other (r : jsstring) :
  csvEscape (VOther r) = csvEscape (VString r).
Proof. reflexivity. Qed.

(** ** isAuthorized *)

(** C6. In development mode every supplied secret, also an absent one,
    is authorized; outside development mode without a configured secret
    none is; outside development mode with a configured secret exactly
    the supplied secret equal to it, code unit by code unit, is. *)
Theorem isAuthorized_contract (env : ProcessEnv) (secret : option jsstring) :
  (development_mode env -> isAuthorized env secret = true) /\
  (~ development_mode env -> configured_secret env = None ->
   isAuthorized env secret = false) /\
  (forall k : jsstring,
      ~ development_mode env -> configured_secret env = Some k ->
      (isAuthorized env secret = true <-> secret = Some k)).
Proof.
  unfold development_mode, configured_secret, isAuthorized.
  destruct (strict_eq (NODE_ENV env) (Some (str "development"))) eqn:D.
  - apply strict_eq_Some in D. repeat split; auto; intros; try contradiction.
  - assert (ND : NODE_ENV env <> Some (str "development")).
    { intros E. apply strict_eq_Some in E. congruence. }
    split; [intros; contradiction|].
    destruct (CAMPAIGN_EXPORT_SECRET env) as [[|c s]|]; simpl;
      (split; [intros; try reflexivity; try discriminate|]);
      intros k _ Hk; try discriminate.
    injection Hk as <-. apply (strict_eq_Some secret (c :: s)).
Qed.

Lemma isAuthorized_contract_witness :
  (isAuthorized env_abc (Some (str "abc")) = true <->
   Some (str "abc") = Some (str "abc")) /\
  isAuthorized env_abc (Some (str "abc")) = true.
Proof.
  assert (ND : ~ development_mode env_abc) by (vm_compute; discriminate).
  pose proof (proj2 (proj2 (isAuthorized_contract env_abc (Some (str "abc"))))
                (str "abc") ND eq_refl) as H.
  split; [exact H | apply H; reflexivity].
Defined.

(** The comparison is case-sensitive, and an absent secret is refused. *)
Example isAuthorized_case :
  isAuthorized env_abc (Some (str "ABC")) = false /\
  isAuthorized env_abc None = false /\
  isAuthorized {| NODE_ENV := Some (str "development");
                  CAMPAIGN_EXPORT_SECRET := None |} None = true /\
  isAuthorized {| NODE_ENV := None; CAMPAIGN_EXPORT_SECRET := None |}
               (Some (str "abc")) = false /\
  isAuthorized {| NODE_ENV := None; CAMPAIGN_EXPORT_SECRET := Some [] |}
               (Some []) = false.
Proof. repeat split. Qed.

(** ** parseExpiresInSeconds *)

Lemma parseInt10_nil : parseInt10 [] = NaN.
Proof. reflexivity. Qed.

Lemma overflow_bound_large : (31536000 * 86400 < overflow_bound)%Z.
Proof. apply Z.ltb_lt. vm_compute. reflexivity. Qed.

Lemma Math_min_Finite (a b : Z) :
  Math_min (Finite a) (Finite b) = Finite (Z.min a b).
Proof.
  unfold Math_min, num_ltb. destruct (a <? b)%Z eqn:E.
  - apply Z.ltb_lt in E. rewrite Z.min_l by lia. reflexivity.
  - apply Z.ltb_ge in E. rewrite Z.min_r by lia. reflexivity.
Qed.

(** Scaling a positive number by a positive constant: either the exact
    product, or plus infinity once the product passes the overflow
    bound. *)
Lemma num_mul_pos (z k : Z) :
  (0 < z)%Z -> (0 < k)%Z ->
  num_mul (Finite z) (Finite k) =
  if (overflow_bound <=? z * k)%Z then PosInf else Finite (z * k).
Proof.
  intros Hz Hk. unfold num_mul, Number_of_Z.
  destruct (overflow_bound <=? z * k)%Z; [reflexivity|].
  pose proof overflow_bound_large.
  destruct (z * k <=? - overflow_bound)%Z eqn:E; [|reflexivity].
  apply Z.leb_le in E. nia.
Qed.

Lemma days_to_seconds (d : Z) :
  (0 < d)%Z ->
  Math_min (num_mul (num_mul (num_mul (Finite d) (Finite 24)) (Finite 60))
                    (Finite 60))
           MAX_EXPIRES_IN_SECONDS
  = Finite (Z.min (d * 86400) expiry_cap).
Proof.
  intros Hd. pose proof overflow_bound_large as B.
  unfold MAX_EXPIRES_IN_SECONDS, expiry_cap.
  change (60 * 60 * 24 * 365)%Z with 31536000%Z.
  rewrite (num_mul_pos Hd) by lia.
  destruct (overflow_bound <=? d * 24)%Z eqn:E1.
  { apply Z.leb_le in E1. cbn. rewrite Z.min_r by lia. reflexivity. }
  apply Z.leb_gt in E1.
  rewrite (@num_mul_pos (d * 24) 60) by lia.
  destruct (overflow_bound <=? d * 24 * 60)%Z eqn:E2.
  { apply Z.leb_le in E2. cbn. rewrite Z.min_r by lia. reflexivity. }
  apply Z.leb_gt in E2.
  rewrite (@num_mul_pos (d * 24 * 60) 60) by lia.
  destruct (overflow_bound <=? d * 24 * 60 * 60)%Z eqn:E3.
  { apply Z.leb_le in E3. cbn. rewrite Z.min_r by lia. reflexivity. }
  rewrite Math_min_Finite. f_equal. f_equal. lia.
Qed.

(** The guard of the source, [if (param)] followed by the test on the
    parsed number, accepts exactly the positive integers of the
    specification. *)
Lemma accepted_positive_integer (param : option jsstring) :
  match param with
  | Some (c :: s) =>
      let parsed := parseInt10 (c :: s) in
      if isFinite parsed && num_gtb parsed (Finite 0) then Some parsed
      else None
  | _ => None
  end = option_map Finite (positive_integer param).
Proof.
  destruct param as [[|c s]|]; try reflexivity.
  unfold positive_integer. cbv zeta.
  destruct (parseInt10 (c :: s)) as [| | |z]; try reflexivity.
  cbn. destruct (0 <? z)%Z; reflexivity.
Qed.

Lemma positive_integer_pos (param : option jsstring) (z : Z) :
  positive_integer param = Some z -> (0 < z)%Z.
Proof.
  unfold positive_integer. destruct param as [s|]; [|discriminate].
  destruct (parseInt10 s) as [| | |n]; try discriminate.
  destruct (0 <? n)%Z eqn:E; [|discriminate].
  intros H; injection H as <-. apply Z.ltb_lt; exact E.
Qed.

Lemma parseExpiresInSeconds_resolved (sp : URLSearchParams) :
  parseExpiresInSeconds sp =
  Finite (resolved_expiry (get sp (str "expiresInSeconds"))
                          (get sp (str "expiresInDays"))).
Proof.
  unfold parseExpiresInSeconds, resolved_expiry.
  set (secs := get sp (str "expiresInSeconds")).
  set (days := get sp (str "expiresInDays")).
  pose proof (accepted_positive_integer secs) as A.
  pose proof (@positive_integer_pos secs) as P.
  destruct (positive_integer secs) as [n|].
  - destruct secs as [[|c s]|]; try discriminate. cbv zeta in A |- *.
    destruct (isFinite (parseInt10 (c :: s)) &&
              num_gtb (parseInt10 (c :: s)) (Finite 0)); [|discriminate].
    cbn in A. injection A as ->. apply Math_min_Finite.
  - assert (A' : match secs with
                 | Some (c :: s) =>
                     if isFinite (parseInt10 (c :: s)) &&
                        num_gtb (parseInt10 (c :: s)) (Finite 0)
                     then Some (Math_min (parseInt10 (c :: s))
                                         MAX_EXPIRES_IN_SECONDS)
                     else None
                 | _ => None
                 end = None).
    { destruct secs as [[|c s]|]; try reflexivity. cbv zeta in A.
      destruct (isFinite (parseInt10 (c :: s)) &&
                num_gtb (parseInt10 (c :: s)) (Finite 0)); [discriminate|].
      reflexivity. }
    cbv zeta. rewrite A'. clear A A' P.
    pose proof (accepted_positive_integer days) as A.
    pose proof (@positive_integer_pos days) as P.
    destruct (positive_integer days) as [d|].
    + destruct days as [[|c s]|]; try discriminate. cbv zeta in A.
      destruct (isFinite (parseInt10 (c :: s)) &&
                num_gtb (parseInt10 (c :: s)) (Finite 0)); [|discriminate].
      cbn in A. injection A as ->. apply days_to_seconds. apply P; reflexivity.
    + destruct days as [[|c s]|]; try reflexivity. cbv zeta in A.
      destruct (isFinite (parseInt10 (c :: s)) &&
                num_gtb (parseInt10 (c :: s)) (Finite 0)); [discriminate|].
      reflexivity.
Qed.

Lemma resolved_expiry_bounds (seconds days : option jsstring) :
  (0 < resolved_expiry seconds days <= 31536000)%Z.
Proof.
  unfold resolved_expiry, expiry_cap.
  pose proof (@positive_integer_pos seconds) as Ps.
  pose proof (@positive_integer_pos days) as Pd.
  destruct (positive_integer seconds) as [n|].
  - specialize (Ps n eq_refl). lia.
  - destruct (positive_integer days) as [d|]; [|lia].
    specialize (Pd d eq_refl). lia.
Qed.

(** C2. The resolved expiry is the parsed [expiresInSeconds] capped at
    31536000 when that parameter parses to a finite integer above zero;
    otherwise [expiresInDays] times 86400 under the same cap when that
    one parses to a finite integer above zero; otherwise 31536000.  An
    [expiresInSeconds] that is not numeric, zero or negative falls
    through to the [expiresInDays] rule, and the result is always a
    positive integer of at most 31536000. *)
Theorem parseExpiresInSeconds_contract (sp : URLSearchParams) :
  (forall n : Z,
      positive_integer (get sp (str "expiresInSeconds")) = Some n ->
      parseExpiresInSeconds sp = Finite (Z.min n 31536000)) /\
  (forall d : Z,
      positive_integer (get sp (str "expiresInSeconds")) = None ->
      positive_integer (get sp (str "expiresInDays")) = Some d ->
      parseExpiresInSeconds sp = Finite (Z.min (d * 86400) 31536000)) /\
  (positive_integer (get sp (str "expiresInSeconds")) = None ->
   positive_integer (get sp (str "expiresInDays")) = None ->
   parseExpiresInSeconds sp = Finite 31536000) /\
  (forall s : jsstring,
      get sp (str "expiresInSeconds") = Some s ->
      parseInt10 s = NaN \/ (exists z, parseInt10 s = Finite z /\ (z <= 0)%Z) ->
      parseExpiresInSeconds sp =
      Finite (match positive_integer (get sp (str "expiresInDays")) with
              | Some d => Z.min (d * 86400) 31536000
              | None => 31536000
              end)) /\
  (exists z : Z,
      parseExpiresInSeconds sp = Finite z /\ (0 < z <= 31536000)%Z).
Proof.
  rewrite parseExpiresInSeconds_resolved.
  repeat split.
  - intros n Hn. unfold resolved_expiry. rewrite Hn. reflexivity.
  - intros d Hs Hd. unfold resolved_expiry. rewrite Hs, Hd. reflexivity.
  - intros Hs Hd. unfold resolved_expiry. rewrite Hs, Hd. reflexivity.
  - intros s Hs Hinv. unfold resolved_expiry.
    assert (E : positive_integer (get sp (str "expiresInSeconds")) = None).
    { rewrite Hs. unfold positive_integer.
      destruct Hinv as [-> | [z [-> Hz]]]; [reflexivity|].
      destruct (0 <? z)%Z eqn:P; [apply Z.ltb_lt in P; lia | reflexivity]. }
    rewrite E. reflexivity.
  - eexists; split; [reflexivity | apply resolved_expiry_bounds].
Qed.

(** The specification's example: minus five seconds with three days
    present resolves to the days value. *)
Lemma parseExpiresInSeconds_contract_witness :
  parseExpiresInSeconds
    [(str "expiresInSeconds", str "-5"); (str "expiresInDays", str "3")]
  = Finite 259200.
Proof.
  apply (proj1 (proj2 (proj2 (proj2
          (parseExpiresInSeconds_contract
             [(str "expiresInSeconds", str "-5");
              (str "expiresInDays", str "3")])))) (str "-5") eq_refl).
  right. exists (-5)%Z. split; [reflexivity | lia].
Defined.

(** The other examples of the specification. *)
Example parseExpiresInSeconds_examples :
  parseExpiresInSeconds [(str "expiresInSeconds", str "100")] = Finite 100 /\
  parseExpiresInSeconds [(str "expiresInSeconds", str "999999999999")]
    = Finite 31536000 /\
  parseExpiresInSeconds [(str "expiresInDays", str "2")] = Finite 172800 /\
  parseExpiresInSeconds [] = Finite 31536000 /\
  parseExpiresInSeconds [(str "expiresInSeconds", str "abc");
                         (str "expiresInDays", str "0")] = Finite 31536000.
Proof. repeat split; vm_compute; reflexivity. Qed.

(** ** What parseInt reads *)

Lemma digit_not_ws (c : code_unit) : isDigit c = true -> isWhiteSpace c = false.
Proof.
  unfold isDigit, isWhiteSpace. intros H.
  apply andb_true_iff in H. destruct H as [H1 H2].
  apply N.leb_le in H1, H2.
  repeat match goal with
         | |- context [(?a <=? ?b)%N] =>
             destruct (N.leb_spec a b)
         | |- context [(?a =? ?b)%N] =>
             destruct (N.eqb_spec a b)
         end; try reflexivity; lia.
Qed.

Lemma digit_not_sign (c : code_unit) :
  isDigit c = true -> N.eqb c PLUS = false /\ N.eqb c MINUS = false.
Proof.
  unfold isDigit, PLUS, MINUS. intros H.
  apply andb_true_iff in H. destruct H as [H1 H2].
  apply N.leb_le in H1, H2. split; apply N.eqb_neq; lia.
Qed.

Lemma trimStart_app_ws (ws x : jsstring) :
  forallb isWhiteSpace ws = true -> trimStart (ws ++ x) = trimStart x.
Proof.
  induction ws as [|c ws IH]; simpl; [reflexivity|].
  intros H. apply andb_true_iff in H. destruct H as [-> H]. auto.
Qed.

Lemma trimStart_split (s : jsstring) :
  exists ws, s = ws ++ trimStart s /\ forallb isWhiteSpace ws = true.
Proof.
  induction s as [|c s [ws [E W]]]; simpl.
  - exists []; split; reflexivity.
  - destruct (isWhiteSpace c) eqn:C.
    + exists (c :: ws); simpl. rewrite C, W. split; [f_equal; exact E | reflexivity].
    + exists []; split; reflexivity.
Qed.

Lemma trimStart_head (s : jsstring) :
  match trimStart s with
  | c :: _ => isWhiteSpace c = false
  | [] => True
  end.
Proof.
  induction s as [|c s IH]; simpl; [exact I|].
  destruct (isWhiteSpace c) eqn:C; [exact IH | exact C].
Qed.

Lemma digits_prefix_app (ds rest : jsstring) :
  forallb isDigit ds = true ->
  match rest with c :: _ => isDigit c = false | [] => True end ->
  digits_prefix (ds ++ rest) = ds.
Proof.
  induction ds as [|d ds IH]; simpl; intros H R.
  - destruct rest as [|c rest]; simpl; [reflexivity | rewrite R; reflexivity].
  - apply andb_true_iff in H. destruct H as [-> H]. f_equal. auto.
Qed.

Lemma digits_prefix_split (s : jsstring) :
  exists rest,
    s = digits_prefix s ++ rest /\
    forallb isDigit (digits_prefix s) = true /\
    match rest with c :: _ => isDigit c = false | [] => True end.
Proof.
  induction s as [|c s [rest [E [D R]]]]; simpl.
  - exists []; repeat split.
  - destruct (isDigit c) eqn:C.
    + exists rest; simpl. rewrite C, D. repeat split; [f_equal; exact E | exact R].
    + exists (c :: s); repeat split. exact C.
Qed.

Lemma parseInt10_skip_ws (ws x : jsstring) :
  forallb isWhiteSpace ws = true -> parseInt10 (ws ++ x) = parseInt10 x.
Proof.
  intros W. unfold parseInt10. rewrite trimStart_app_ws by exact W.
  reflexivity.
Qed.

Lemma parseInt10_plus (x : jsstring) :
  parseInt10 (PLUS :: x) =
  match digits_prefix x with
  | [] => NaN
  | ds => Number_of_Z (1 * digits_value ds)
  end.
Proof. reflexivity. Qed.

Lemma parseInt10_minus (x : jsstring) :
  parseInt10 (MINUS :: x) =
  match digits_prefix x with
  | [] => NaN
  | ds => Number_of_Z (-1 * digits_value ds)
  end.
Proof. reflexivity. Qed.

Lemma parseInt10_digit (d : code_unit) (x : jsstring) :
  isDigit d = true ->
  parseInt10 (d :: x) = Number_of_Z (1 * digits_value (digits_prefix (d :: x))).
Proof.
  intros Dd. unfold parseInt10. cbn [trimStart].
  rewrite (digit_not_ws _ Dd).
  destruct (digit_not_sign _ Dd) as [-> ->]. cbn [orb].
  cbn [digits_prefix]. rewrite Dd. reflexivity.
Qed.

(** What [parseInt10] computes on a string that reads as an integer. *)
Lemma parseInt10_decompose (ws sgn ds rest : jsstring) :
  forallb isWhiteSpace ws = true ->
  ds <> [] ->
  forallb isDigit ds = true ->
  match rest with c :: _ => isDigit c = false | [] => True end ->
  (sgn = [] \/ sgn = [PLUS] ->
   parseInt10 (ws ++ sgn ++ ds ++ rest) = Number_of_Z (digits_value ds)) /\
  (sgn = [MINUS] ->
   parseInt10 (ws ++ sgn ++ ds ++ rest) = Number_of_Z (- digits_value ds)).
Proof.
  intros W N D R.
  pose proof (digits_prefix_app ds rest D R) as DP.
  destruct ds as [|d ds]; [congruence|].
  pose proof D as D0. cbn [forallb] in D0. apply andb_true_iff in D0.
  destruct D0 as [Dd _].
  split.
  - intros [-> | ->]; rewrite parseInt10_skip_ws by exact W.
    + cbn [app] in *. rewrite parseInt10_digit by exact Dd.
      rewrite DP. f_equal. apply Z.mul_1_l.
    + cbn [app] in *. rewrite parseInt10_plus, DP. f_equal. apply Z.mul_1_l.
  - intros ->. rewrite parseInt10_skip_ws by exact W.
    cbn [app] in *. rewrite parseInt10_minus, DP.
    f_equal; try (destruct (digits_value (d :: ds)); reflexivity).
Qed.

Lemma parseInt10_reads (s : jsstring) (z : Z) :
  reads_integer s z -> parseInt10 s = Number_of_Z z.
Proof.
  intros [ws [sgn [ds [rest [-> [W [N [D [R H]]]]]]]]].
  destruct (@parseInt10_decompose ws sgn ds rest W N D R) as [Hp Hm].
  destruct H as [[Hs ->] | [Hs ->]]; auto.
Qed.

Lemma Number_of_Z_not_NaN (z : Z) : Number_of_Z z <> NaN.
Proof.
  unfold Number_of_Z.
  destruct (overflow_bound <=? z)%Z; [discriminate|].
  destruct (z <=? - overflow_bound)%Z; discriminate.
Qed.

(** A signed run of digits at the head of a string that holds no
    leading white space. *)
Lemma signed_digits_read (sgn x : jsstring) :
  digits_prefix x <> [] ->
  exists rest,
    x = digits_prefix x ++ rest /\
    forall ws, forallb isWhiteSpace ws = true ->
      (sgn = [] \/ sgn = [PLUS] ->
       reads_integer (ws ++ sgn ++ x) (digits_value (digits_prefix x))) /\
      (sgn = [MINUS] ->
       reads_integer (ws ++ sgn ++ x) (- digits_value (digits_prefix x))).
Proof.
  intros N. destruct (digits_prefix_split x) as [rest [E [D R]]].
  exists rest. split; [exact E|].
  intros ws W. split; intros Hs;
    exists ws, sgn, (digits_prefix x), rest;
    (split; [rewrite <- E; reflexivity|]);
    repeat (split; [assumption|]); tauto.
Qed.

(** Whenever [parseInt10] yields a number, the string reads as an
    integer. *)
Lemma parseInt10_number_reads (s : jsstring) :
  parseInt10 s <> NaN -> exists z, reads_integer s z.
Proof.
  destruct (trimStart_split s) as [ws [E W]].
  pose proof (trimStart_head s) as Hd.
  rewrite E at 1. rewrite parseInt10_skip_ws by exact W.
  intros NN. rewrite E.
  destruct (trimStart s) as [|c r]; [exfalso; apply NN; reflexivity|].
  destruct (N.eqb_spec c PLUS) as [-> | NP];
    [|destruct (N.eqb_spec c MINUS) as [-> | NM]].
  - rewrite parseInt10_plus in NN.
    assert (N : digits_prefix r <> []).
    { intros Z. rewrite Z in NN. apply NN; reflexivity. }
    destruct (@signed_digits_read [PLUS] r N) as [rest [_ H]].
    eexists. apply (proj1 (H ws W)). right; reflexivity.
  - rewrite parseInt10_minus in NN.
    assert (N : digits_prefix r <> []).
    { intros Z. rewrite Z in NN. apply NN; reflexivity. }
    destruct (@signed_digits_read [MINUS] r N) as [rest [_ H]].
    eexists. apply (proj2 (H ws W)). reflexivity.
  - assert (N : digits_prefix (c :: r) <> []).
    { intros Z. apply NN. unfold parseInt10. cbn [trimStart]. rewrite Hd.
      apply N.eqb_neq in NP, NM. rewrite NP, NM. cbn [orb]. rewrite Z.
      reflexivity. }
    destruct (@signed_digits_read [] (c :: r) N) as [rest [_ H]].
    eexists. apply (proj1 (H ws W)). left; reflexivity.
Qed.

(** Either [parseInt10] yields NaN and the string reads as no integer,
    or the string reads as an integer. *)
Lemma parseInt10_cases (s : jsstring) :
  (parseInt10 s = NaN /\ forall z, ~ reads_integer s z) \/
  (exists z, reads_integer s z).
Proof.
  destruct (parseInt10 s) as [| | |n] eqn:P.
  - left. split; [reflexivity|]. intros z R.
    apply parseInt10_reads in R. rewrite P in R. symmetry in R.
    exact (@Number_of_Z_not_NaN z R).
  - right. apply parseInt10_number_reads. rewrite P. discriminate.
  - right. apply parseInt10_number_reads. rewrite P. discriminate.
  - right. apply parseInt10_number_reads. rewrite P. discriminate.
Qed.

Lemma positive_integer_reads (s : jsstring) (z : Z) :
  reads_integer s z -> (0 < z < overflow_bound)%Z ->
  positive_integer (Some s) = Some z.
Proof.
  intros R [P B]. unfold positive_integer.
  rewrite (parseInt10_reads R). unfold Number_of_Z.
  destruct (overflow_bound <=? z)%Z eqn:E1; [apply Z.leb_le in E1; lia|].
  destruct (z <=? - overflow_bound)%Z eqn:E2; [apply Z.leb_le in E2; lia|].
  destruct (0 <? z)%Z eqn:E3; [reflexivity | apply Z.ltb_ge in E3; lia].
Qed.

Lemma positive_integer_rejects (s : jsstring) (z : Z) :
  reads_integer s z -> (z <= 0 \/ overflow_bound <= z)%Z ->
  positive_integer (Some s) = None.
Proof.
  intros R H. unfold positive_integer.
  rewrite (parseInt10_reads R). unfold Number_of_Z.
  destruct (overflow_bound <=? z)%Z eqn:E1; [reflexivity|].
  destruct (z <=? - overflow_bound)%Z eqn:E2; [reflexivity|].
  apply Z.leb_gt in E1.
  destruct (0 <? z)%Z eqn:E3; [apply Z.ltb_lt in E3; lia | reflexivity].
Qed.

(** C9 (amended). A parameter string that reads as a positive integer
    below 2^1024 - 2^970, followed by any text, is accepted with that
    integer: as [expiresInSeconds] it gives the integer under the cap,
    and as [expiresInDays], once the seconds parameter has fallen
    through, the integer times 86400 under the cap.  A string falls
    through to the next rule exactly when it reads as no integer at
    all, or as an integer that is zero, negative, or at least
    2^1024 - 2^970, where parseInt yields an infinity. *)
Theorem expiry_integer_prefix :
  (forall (sp : URLSearchParams) (s : jsstring) (z : Z),
      get sp (str "expiresInSeconds") = Some s ->
      reads_integer s z -> (0 < z < overflow_bound)%Z ->
      parseExpiresInSeconds sp = Finite (Z.min z 31536000)) /\
  (forall (sp : URLSearchParams) (s : jsstring) (z : Z),
      positive_integer (get sp (str "expiresInSeconds")) = None ->
      get sp (str "expiresInDays") = Some s ->
      reads_integer s z -> (0 < z < overflow_bound)%Z ->
      parseExpiresInSeconds sp = Finite (Z.min (z * 86400) 31536000)) /\
  (forall s : jsstring,
      positive_integer (Some s) = None <->
      (forall z, ~ reads_integer s z) \/
      (exists z, reads_integer s z /\ (z <= 0 \/ overflow_bound <= z)%Z)).
Proof.
  split; [|split].
  - intros sp s z G R B. rewrite parseExpiresInSeconds_resolved, G.
    unfold resolved_expiry. rewrite (positive_integer_reads R B). reflexivity.
  - intros sp s z F G R B. rewrite parseExpiresInSeconds_resolved, G.
    unfold resolved_expiry. rewrite F, (positive_integer_reads R B).
    reflexivity.
  - intros s. split.
    + intros H. destruct (parseInt10_cases s) as [[_ N] | [z R]];
        [left; exact N|].
      right. exists z. split; [exact R|].
      destruct (Z_le_gt_dec z 0) as [L|G]; [left; exact L|].
      destruct (Z_lt_le_dec z overflow_bound) as [B|B]; [|right; exact B].
      rewrite (positive_integer_reads R) in H by lia. discriminate.
    + intros [H | [z [R B]]].
      * destruct (parseInt10_cases s) as [[P _] | [z R]].
        -- unfold positive_integer. rewrite P. reflexivity.
        -- exfalso. exact (H z R).
      * exact (positive_integer_rejects R B).
Qed.

(** The strings 100abc and 100.5 are accepted as 100. *)
Lemma expiry_integer_prefix_witness :
  parseExpiresInSeconds [(str "expiresInSeconds", str "100abc")] = Finite 100 /\
  parseExpiresInSeconds [(str "expiresInDays", str "100.5")]
  = Finite 8640000.
Proof.
  assert (B : (0 < 100 < overflow_bound)%Z).
  { split; [lia | apply Z.ltb_lt; vm_compute; reflexivity]. }
  split.
  - apply (proj1 expiry_integer_prefix
             [(str "expiresInSeconds", str "100abc")] (str "100abc") 100%Z
             eq_refl); [|exact B].
    exists [], [], (str "100"), (str "abc").
    repeat split; try reflexivity; try discriminate. left; split; auto.
  - apply (proj1 (proj2 expiry_integer_prefix)
             [(str "expiresInDays", str "100.5")] (str "100.5") 100%Z
             eq_refl eq_refl); [|exact B].
    exists [], [], (str "100"), (str ".5").
    repeat split; try reflexivity; try discriminate. left; split; auto.
Defined.

(** C9 as stated fails: a run of 310 digits followed by text is a
    positive integer prefix, yet parseInt yields an infinity for it, the
    finiteness test rejects it, and the days rule decides (two days,
    172800 seconds) where the claim has the capped prefix. *)
Lemma expiry_integer_prefix_counterexample :
  forallb isDigit huge_digits = true /\
  (0 < digits_value huge_digits)%Z /\
  parseInt10 (huge_digits ++ str "abc") = PosInf /\
  parseExpiresInSeconds
    [(str "expiresInSeconds", huge_digits ++ str "abc");
     (str "expiresInDays", str "2")] = Finite 172800 /\
  Finite 172800 <> Finite (Z.min (digits_value huge_digits) 31536000).
Proof.
  split; [vm_compute; reflexivity|].
  split; [apply Z.ltb_lt; vm_compute; reflexivity|].
  split; [vm_compute; reflexivity|].
  split; [vm_compute; reflexivity|].
  vm_compute. discriminate.
Qed.

(** ** The handlers, path by path *)

(** The candidates handler on a request without request-level error. *)
Lemma cand_GET_rows (w : World CandidatesRoute.CandidateRow) (req : Request) :
  cand_reaches_rows w req ->
  CandidatesRoute.GET w req =
  (CandidatesRoute.ok_response w (cand_role w req) (cand_fetched w req)
     (cand_exported w req),
   CandidatesRoute.fetch_effect (cand_role w req)
     :: concat (map snd (cand_results w req))).
Proof.
  intros H. split_gates H.
  unfold CandidatesRoute.GET. cbv zeta. rewrite Hauth. cbn [negb].
  unfold cand_exported, cand_results, cand_retained, cand_fetched in *.
  unfold cand_role in *.
  destruct (CandidatesRoute.role_of w (searchParams req)) as [|c r] eqn:E;
    [congruence|].
  rewrite Hfetch. reflexivity.
Qed.

(** The four ways the candidates handler can answer. *)
Lemma cand_GET_cases (w : World CandidatesRoute.CandidateRow) (req : Request) :
  (isAuthorized (process_env w) (get (searchParams req) (str "secret")) = false
   /\ CandidatesRoute.GET w req
      = (NextResponse.json (str "Forbidden") 403, [])) \/
  (isAuthorized (process_env w) (get (searchParams req) (str "secret")) = true
   /\ cand_role w req = []
   /\ CandidatesRoute.GET w req
      = (NextResponse.json (str "Missing role") 400, [])) \/
  (isAuthorized (process_env w) (get (searchParams req) (str "secret")) = true
   /\ cand_role w req <> []
   /\ error (CandidatesRoute.fetch w (cand_role w req)) <> None
   /\ CandidatesRoute.GET w req
      = (NextResponse.json (str "Kunne ikke hente kandidater") 500,
         [CandidatesRoute.fetch_effect (cand_role w req);
          ConsoleError CandidatesRoute.TAG])) \/
  cand_reaches_rows w req.
Proof.
  unfold cand_reaches_rows, cand_role, CandidatesRoute.GET. cbv zeta.
  destruct (isAuthorized _ _); cbn [negb]; [|left; auto].
  right.
  destruct (CandidatesRoute.role_of w (searchParams req)) as [|c r];
    [left; auto|].
  right.
  destruct (error (CandidatesRoute.fetch w (c :: r))) eqn:E.
  - left. repeat split; try discriminate. 
  - right. repeat split; try discriminate; auto.
Qed.

(** The campaign handler on a request without request-level error. *)
Lemma camp_GET_rows (w : World CampaignRoute.CampaignApplicationRow)
    (req : Request) :
  camp_reaches_rows w req ->
  CampaignRoute.GET w req =
  (CampaignRoute.ok_response w (camp_position w req) (camp_fetched w req)
     (camp_exported w req),
   CampaignRoute.fetch_effect (camp_position w req)
     :: concat (map snd (camp_results w req))).
Proof.
  intros H. split_gates H.
  unfold CampaignRoute.GET. cbv zeta. rewrite Hauth. cbn [negb].
  unfold camp_exported, camp_results, camp_retained, camp_fetched in *.
  unfold camp_position in *.
  destruct (CampaignRoute.position_of w (searchParams req)) as [|c r] eqn:E;
    [congruence|].
  rewrite Hfetch. reflexivity.
Qed.

(** The four ways the campaign handler can answer. *)
Lemma camp_GET_cases (w : World CampaignRoute.CampaignApplicationRow)
    (req : Request) :
  (isAuthorized (process_env w) (get (searchParams req) (str "secret")) = false
   /\ CampaignRoute.GET w req
      = (NextResponse.json (str "Forbidden") 403, [])) \/
  (isAuthorized (process_env w) (get (searchParams req) (str "secret")) = true
   /\ camp_position w req = []
   /\ CampaignRoute.GET w req
      = (NextResponse.json (str "Missing position") 400, [])) \/
  (isAuthorized (process_env w) (get (searchParams req) (str "secret")) = true
   /\ camp_position w req <> []
   /\ error (CampaignRoute.fetch w (camp_position w req)) <> None
   /\ CampaignRoute.GET w req
      = (NextResponse.json (str "Kunne ikke hente kampanjesoknader") 500,
         [CampaignRoute.fetch_effect (camp_position w req);
          ConsoleError CampaignRoute.TAG])) \/
  camp_reaches_rows w req.
Proof.
  unfold camp_reaches_rows, camp_position, CampaignRoute.GET. cbv zeta.
  destruct (isAuthorized _ _); cbn [negb]; [|left; auto].
  right.
  destruct (CampaignRoute.position_of w (searchParams req)) as [|c r];
    [left; auto|].
  right.
  destruct (error (CampaignRoute.fetch w (c :: r))) eqn:E.
  - left. repeat split; try discriminate.
  - right. repeat split; try discriminate; auto.
Qed.

(** A 200 answer comes from the row path only. *)
Lemma cand_status_200 (w : World CandidatesRoute.CandidateRow) (req : Request) :
  NextResponse.status (fst (CandidatesRoute.GET w req)) = 200%Z <->
  cand_reaches_rows w req.
Proof.
  split.
  - intros S.
    destruct (cand_GET_cases w req) as [[_ E]|[[_ [_ E]]|[[_ [_ [_ E]]]|H]]];
      try exact H; rewrite E in S; discriminate.
  - intros H. rewrite (cand_GET_rows H). reflexivity.
Qed.

Lemma camp_status_200 (w : World CampaignRoute.CampaignApplicationRow)
    (req : Request) :
  NextResponse.status (fst (CampaignRoute.GET w req)) = 200%Z <->
  camp_reaches_rows w req.
Proof.
  split.
  - intros S.
    destruct (camp_GET_cases w req) as [[_ E]|[[_ [_ E]]|[[_ [_ [_ E]]]|H]]];
      try exact H; rewrite E in S; discriminate.
  - intros H. rewrite (camp_GET_rows H). reflexivity.
Qed.

(** ** Rows *)

Lemma nth_error_mapi_from (A B : Type) (f : nat -> A -> B) (l : list A)
    (i k : nat) :
  nth_error (mapi_from f i l) k = option_map (f (i + k)) (nth_error l k).
Proof.
  revert i k. induction l as [|a l IH]; intros i [|k]; simpl; try reflexivity.
  - rewrite Nat.add_0_r. reflexivity.
  - rewrite IH. f_equal. f_equal. lia.
Qed.

Lemma length_mapi_from (A B : Type) (f : nat -> A -> B) (l : list A) (i : nat) :
  length (mapi_from f i l) = length l.
Proof.
  revert i. induction l as [|a l IH]; intros i; simpl; [reflexivity|].
  rewrite IH. reflexivity.
Qed.

Section Resolve.
Variable Row : Type.
Variable w : World Row.
Variables tag id bucket : jsstring.
Variable i : nat.
Variable expiresInSeconds : number.

Lemma resolve_cv_empty :
  resolve_cv w tag id i bucket [] expiresInSeconds = ([], [], []).
Proof. reflexivity. Qed.

Lemma resolve_cv_url (key : jsstring) :
  key <> [] ->
  startsWith key (str "http://") = true \/
  startsWith key (str "https://") = true ->
  resolve_cv w tag id i bucket key expiresInSeconds = (key, [], []).
Proof.
  intros N H. unfold resolve_cv. destruct key as [|c key]; [congruence|].
  destruct H as [-> | ->]; [reflexivity | rewrite orb_true_r; reflexivity].
Qed.




(** A key leads to a store call exactly when it needs signing. *)
Lemma resolve_cv_store_calls (key : jsstring) :
  store_calls (snd (resolve_cv w tag id i bucket key expiresInSeconds)) = []
  <-> ~ needs_signing key.
Proof.
  unfold resolve_cv, needs_signing.
  destruct key as [|c key]; [cbn; tauto|].
  destruct (startsWith (c :: key) (str "http://")) eqn:H1;
    [cbn; split; [intros _ [_ [H _]]; discriminate | reflexivity]|].
  destruct (startsWith (c :: key) (str "https://")) eqn:H2;
    [cbn; split; [intros _ [_ [_ H]]; discriminate | reflexivity]|].
  cbn [orb].
  destruct (sign_error (createSignedUrl w i bucket (c :: key) expiresInSeconds));
    cbn; split; try discriminate; intros H; exfalso; apply H;
    repeat split; discriminate.
Qed.
End Resolve.

(** ** Trimming a reference that carries a scheme *)

Lemma startsWith_app (s p : jsstring) :
  startsWith s p = true <-> exists t, s = p ++ t.
Proof.
  revert s. induction p as [|c p IH]; intros s; simpl.
  - split; [intros _; exists s; reflexivity | destruct s; reflexivity].
  - destruct s as [|d s]; simpl.
    + split; [discriminate | intros [t E]; discriminate].
    + rewrite andb_true_iff, N.eqb_eq, IH. split.
      * intros [-> [t ->]]. exists t; reflexivity.
      * intros [t E]. injection E as -> ->. split; [reflexivity | eauto].
Qed.

Lemma trimStart_app (x y : jsstring) :
  trimStart (x ++ y) =
  match trimStart x with
  | [] => trimStart y
  | r => r ++ y
  end.
Proof.
  induction x as [|c x IH]; simpl.
  - destruct (trimStart y); reflexivity.
  - destruct (isWhiteSpace c); [exact IH | reflexivity].
Qed.

Lemma trimEnd_app_keep (p t : jsstring) :
  trimStart (rev p) = rev p -> trimEnd (p ++ t) = p ++ trimEnd t.
Proof.
  intros H. unfold trimEnd. rewrite rev_app_distr, trimStart_app.
  destruct (trimStart (rev t)) as [|c r].
  - rewrite H, rev_involutive, app_nil_r. reflexivity.
  - rewrite rev_app_distr, rev_involutive. reflexivity.
Qed.

(** Trimming a string that starts with a prefix free of white space at
    both ends removes trailing white space only and keeps the prefix. *)
Lemma trim_keeps_prefix (c : code_unit) (p s : jsstring) :
  isWhiteSpace c = false ->
  trimStart (rev (c :: p)) = rev (c :: p) ->
  startsWith s (c :: p) = true ->
  trim s = trimEnd s /\ startsWith (trim s) (c :: p) = true /\ trim s <> [].
Proof.
  intros Hc Hr H. apply startsWith_app in H. destruct H as [t ->].
  assert (E : trimStart ((c :: p) ++ t) = (c :: p) ++ t).
  { cbn [app trimStart]. rewrite Hc. reflexivity. }
  unfold trim. rewrite E. split; [reflexivity|].
  rewrite (@trimEnd_app_keep (c :: p) t Hr). split.
  - apply startsWith_app. eexists; reflexivity.
  - discriminate.
Qed.

Lemma trim_keeps_scheme (s : jsstring) :
  startsWith s (str "http://") = true \/ startsWith s (str "https://") = true ->
  trim s = trimEnd s /\
  trim s <> [] /\
  (startsWith (trim s) (str "http://") = true \/
   startsWith (trim s) (str "https://") = true).
Proof.
  intros [H | H].
  - destruct (@trim_keeps_prefix 104%N (str "ttp://") s eq_refl eq_refl H)
      as [E [P N]]. auto.
  - destruct (@trim_keeps_prefix 104%N (str "ttps://") s eq_refl eq_refl H)
      as [E [P N]]. auto.
Qed.

(** The callback of a row, field by field, in terms of the resolution
    of its key. *)
Lemma cand_export_row_resolved (w : World CandidatesRoute.CandidateRow)
    (bucket : jsstring) (expiresIn : number) (role : jsstring) (i : nat)
    (row : CandidatesRoute.CandidateRow) :
  let r := resolve_cv w CandidatesRoute.TAG (CandidatesRoute.id row) i bucket
             (trimmed_or_empty (CandidatesRoute.cv_key row)) expiresIn in
  let x := CandidatesRoute.export_row w bucket expiresIn role i row in
  CandidatesRoute.ExportRow.cv_download_url (fst x) = fst (fst r) /\
  CandidatesRoute.ExportRow.cv_error (fst x) = snd (fst r) /\
  snd x = snd r.
Proof.
  cbv zeta. unfold CandidatesRoute.export_row.
  destruct (resolve_cv _ _ _ _ _ _ _) as [[u e] eff]. repeat split.
Qed.

Lemma camp_export_row_resolved
    (w : World CampaignRoute.CampaignApplicationRow)
    (bucket : jsstring) (expiresIn : number) (position : jsstring) (i : nat)
    (row : CampaignRoute.CampaignApplicationRow) :
  let r := resolve_cv w CampaignRoute.TAG (CampaignRoute.id row) i bucket
             (trimmed_or_empty (CampaignRoute.cv_url row)) expiresIn in
  let x := CampaignRoute.export_row w bucket expiresIn position i row in
  CampaignRoute.ExportRow.cv_download_url (fst x) = fst (fst r) /\
  CampaignRoute.ExportRow.cv_error (fst x) = snd (fst r) /\
  snd x = snd r.
Proof.
  cbv zeta. unfold CampaignRoute.export_row.
  destruct (resolve_cv _ _ _ _ _ _ _) as [[u e] eff]. repeat split.
Qed.

(** What the resolution of a reference yields when the reference is
    blank, and when it carries a scheme. *)
Lemma resolve_reference (Row : Type) (w : World Row) (tag id bucket : jsstring)
    (i : nat) (expiresIn : number) (ref : option jsstring) :
  (blank ref = true ->
   resolve_cv w tag id i bucket (trimmed_or_empty ref) expiresIn
   = ([], [], [])) /\
  (forall s : jsstring,
      ref = Some s ->
      startsWith s (str "http://") = true \/
      startsWith s (str "https://") = true ->
      resolve_cv w tag id i bucket (trimmed_or_empty ref) expiresIn
      = (trimEnd s, [], [])).
Proof.
  split.
  - intros B. apply trimmed_or_empty_nil_iff in B. rewrite B. reflexivity.
  - intros s -> H. rewrite trimmed_or_empty_Some.
    destruct (trim_keeps_scheme s H) as [E [N P]].
    rewrite (resolve_cv_url w tag id bucket i expiresIn N P).
    rewrite E. reflexivity.
Qed.

(** C3 (amended).  In both handlers the callback of a row whose file
    reference is null, empty or white space only attempts no signed-URL
    resolution and leaves the download URL and the row error empty; for
    a reference that begins with http:// or https:// the download URL
    is the reference less its trailing white space, the row error is
    empty, and no object-store call is made. *)
Theorem reference_resolution :
  (forall (w : World CandidatesRoute.CandidateRow) (bucket : jsstring)
          (expiresIn : number) (role : jsstring) (i : nat)
          (row : CandidatesRoute.CandidateRow),
      (blank (CandidatesRoute.cv_key row) = true ->
       CandidatesRoute.ExportRow.cv_download_url
         (fst (CandidatesRoute.export_row w bucket expiresIn role i row)) = [] /\
       CandidatesRoute.ExportRow.cv_error
         (fst (CandidatesRoute.export_row w bucket expiresIn role i row)) = [] /\
       snd (CandidatesRoute.export_row w bucket expiresIn role i row) = []) /\
      (forall s : jsstring,
          CandidatesRoute.cv_key row = Some s ->
          startsWith s (str "http://") = true \/
          startsWith s (str "https://") = true ->
          CandidatesRoute.ExportRow.cv_download_url
            (fst (CandidatesRoute.export_row w bucket expiresIn role i row))
          = trimEnd s /\
          CandidatesRoute.ExportRow.cv_error
            (fst (CandidatesRoute.export_row w bucket expiresIn role i row)) = [] /\
          snd (CandidatesRoute.export_row w bucket expiresIn role i row) = []))
  /\
  (forall (w : World CampaignRoute.CampaignApplicationRow) (bucket : jsstring)
          (expiresIn : number) (position : jsstring) (i : nat)
          (row : CampaignRoute.CampaignApplicationRow),
      (blank (CampaignRoute.cv_url row) = true ->
       CampaignRoute.ExportRow.cv_download_url
         (fst (CampaignRoute.export_row w bucket expiresIn position i row)) = [] /\
       CampaignRoute.ExportRow.cv_error
         (fst (CampaignRoute.export_row w bucket expiresIn position i row)) = [] /\
       snd (CampaignRoute.export_row w bucket expiresIn position i row) = []) /\
      (forall s : jsstring,
          CampaignRoute.cv_url row = Some s ->
          startsWith s (str "http://") = true \/
          startsWith s (str "https://") = true ->
          CampaignRoute.ExportRow.cv_download_url
            (fst (CampaignRoute.export_row w bucket expiresIn position i row))
          = trimEnd s /\
          CampaignRoute.ExportRow.cv_error
            (fst (CampaignRoute.export_row w bucket expiresIn position i row)) = [] /\
          snd (CampaignRoute.export_row w bucket expiresIn position i row) = [])).
Proof.
  split.
  - intros w bucket expiresIn role i row.
    destruct (cand_export_row_resolved w bucket expiresIn role i row)
      as [U [E S]].
    destruct (resolve_reference w CandidatesRoute.TAG (CandidatesRoute.id row)
                bucket i expiresIn (CandidatesRoute.cv_key row)) as [B H].
    rewrite U, E, S. split.
    + intros Hb. rewrite (B Hb). repeat split.
    + intros s Hs Hp. rewrite (H s Hs Hp). repeat split.
  - intros w bucket expiresIn position i row.
    destruct (camp_export_row_resolved w bucket expiresIn position i row)
      as [U [E S]].
    destruct (resolve_reference w CampaignRoute.TAG (CampaignRoute.id row)
                bucket i expiresIn (CampaignRoute.cv_url row)) as [B H].
    rewrite U, E, S. split.
    + intros Hb. rewrite (B Hb). repeat split.
    + intros s Hs Hp. rewrite (H s Hs Hp). repeat split.
Qed.

(** A white-space-only key and an absolute URL, one per handler. *)
Lemma reference_resolution_witness :
  snd (CandidatesRoute.export_row
         (sample_world []) (str "candidate-cvs") (Finite 100)
         (str "elektriker") 0 (cand_row "c1" (Some (str "  ")))) = [] /\
  CampaignRoute.ExportRow.cv_download_url
    (fst (CampaignRoute.export_row
            (sample_world []) (str "candidate-cvs") (Finite 100)
            (str "elektriker") 0
            (camp_row "a1" (Some (str "https://host/file.pdf")))))
  = str "https://host/file.pdf".
Proof.
  destruct reference_resolution as [Hcand Hcamp]. split.
  - apply (Hcand (sample_world []) (str "candidate-cvs") (Finite 100)
             (str "elektriker") 0 (cand_row "c1" (Some (str "  ")))).
    reflexivity.
  - apply (proj2 (Hcamp (sample_world []) (str "candidate-cvs") (Finite 100)
                    (str "elektriker") 0
                    (camp_row "a1" (Some (str "https://host/file.pdf"))))
             (str "https://host/file.pdf") eq_refl).
    right. reflexivity.
Defined.

(** C3 as stated fails: a reference that begins with https:// and ends
    in a space is not passed through verbatim; the download URL is the
    reference without the space. *)
Lemma reference_resolution_counterexample :
  startsWith padded_url (str "https://") = true /\
  CandidatesRoute.ExportRow.cv_download_url
    (fst (CandidatesRoute.export_row
            (sample_world []) (str "candidate-cvs") (Finite 100)
            (str "elektriker") 0 (cand_row "c1" (Some padded_url))))
  = str "https://host/file.pdf" /\
  CampaignRoute.ExportRow.cv_download_url
    (fst (CampaignRoute.export_row
            (sample_world []) (str "candidate-cvs") (Finite 100)
            (str "elektriker") 0 (camp_row "a1" (Some padded_url))))
  = str "https://host/file.pdf" /\
  str "https://host/file.pdf" <> padded_url.
Proof.
  repeat split; try (vm_compute; reflexivity). vm_compute. discriminate.
Qed.

(** ** Row independence *)


Lemma nth_error_exported (A X : Type) (f : nat -> A -> X * list effect)
    (l : list A) (k : nat) :
  nth_error (map fst (mapi_from f 0 l)) k
  = option_map (fun a => fst (f k a)) (nth_error l k).
Proof.
  rewrite nth_error_map, nth_error_mapi_from.
  destruct (nth_error l k); reflexivity.
Qed.












(** ** The includeMissing filter *)

Lemma filter_has_reference (Row : Type) (ref : Row -> option jsstring)
    (rows : list Row) :
  filter (fun r => has_reference (ref r)) rows
  = filter (fun r => negb (blank (ref r))) rows.
Proof.
  apply filter_ext. intros r. apply has_reference_blank.
Qed.

Lemma flag_exactly_true (sp : URLSearchParams) :
  strict_eq (get sp (str "includeMissing")) (Some (str "true")) = true <->
  get sp (str "includeMissing") = Some (str "true").
Proof. apply strict_eq_Some. Qed.

(** C7.  In both handlers the includeMissing flag is true exactly when
    the query parameter is the string true.  When the flag is false the
    retained rows are exactly the fetched rows whose file reference is
    not blank, in their order, so none of them has an empty or
    white-space-only reference; when the flag is true the retained list
    is the fetched list. *)
Theorem includeMissing_filter :
  (forall (sp : URLSearchParams) (rows : list CandidatesRoute.CandidateRow),
      (CandidatesRoute.includeMissing_of sp = true <->
       get sp (str "includeMissing") = Some (str "true")) /\
      (CandidatesRoute.includeMissing_of sp = false ->
       CandidatesRoute.filtered_of (CandidatesRoute.includeMissing_of sp) rows
       = filter (fun r => negb (blank (CandidatesRoute.cv_key r))) rows /\
       forall r,
         In r (CandidatesRoute.filtered_of
                 (CandidatesRoute.includeMissing_of sp) rows) ->
         blank (CandidatesRoute.cv_key r) = false) /\
      (CandidatesRoute.includeMissing_of sp = true ->
       CandidatesRoute.filtered_of (CandidatesRoute.includeMissing_of sp) rows
       = rows))
  /\
  (forall (sp : URLSearchParams)
          (rows : list CampaignRoute.CampaignApplicationRow),
      (CampaignRoute.includeMissing_of sp = true <->
       get sp (str "includeMissing") = Some (str "true")) /\
      (CampaignRoute.includeMissing_of sp = false ->
       CampaignRoute.filtered_of (CampaignRoute.includeMissing_of sp) rows
       = filter (fun r => negb (blank (CampaignRoute.cv_url r))) rows /\
       forall r,
         In r (CampaignRoute.filtered_of
                 (CampaignRoute.includeMissing_of sp) rows) ->
         blank (CampaignRoute.cv_url r) = false) /\
      (CampaignRoute.includeMissing_of sp = true ->
       CampaignRoute.filtered_of (CampaignRoute.includeMissing_of sp) rows
       = rows)).
Proof.
  split; intros sp rows; (split; [apply flag_exactly_true|]); split.
  - intros ->. unfold CandidatesRoute.filtered_of.
    rewrite filter_has_reference. split; [reflexivity|].
    intros r Hr. apply filter_In in Hr. destruct Hr as [_ Hr].
    apply negb_true_iff in Hr. exact Hr.
  - intros ->. reflexivity.
  - intros ->. unfold CampaignRoute.filtered_of.
    rewrite filter_has_reference. split; [reflexivity|].
    intros r Hr. apply filter_In in Hr. destruct Hr as [_ Hr].
    apply negb_true_iff in Hr. exact Hr.
  - intros ->. reflexivity.
Qed.

(** With the flag unset the blank row of two is dropped; with
    includeMissing=true both rows stay. *)
Lemma includeMissing_filter_witness :
  CandidatesRoute.filtered_of (CandidatesRoute.includeMissing_of [])
    one_blank_candidate
  = [cand_row "c1" (Some (str "abc.pdf"))] /\
  CampaignRoute.filtered_of
    (CampaignRoute.includeMissing_of [(str "includeMissing", str "true")])
    one_blank_application
  = one_blank_application.
Proof.
  destruct includeMissing_filter as [Hcand Hcamp]. split.
  - destruct (Hcand [] one_blank_candidate) as [_ [H _]].
    rewrite (proj1 (H eq_refl)). reflexivity.
  - destruct (Hcamp [(str "includeMissing", str "true")] one_blank_application)
      as [_ [_ H]].
    apply H. reflexivity.
Defined.

(** Other spellings of the flag do not set it. *)
Example includeMissing_spellings :
  CandidatesRoute.includeMissing_of [(str "includeMissing", str "TRUE")] = false /\
  CandidatesRoute.includeMissing_of [(str "includeMissing", str "1")] = false /\
  CampaignRoute.includeMissing_of [(str "includeMissing", str "true ")] = false /\
  CampaignRoute.includeMissing_of [] = false.
Proof. repeat split. Qed.

(** ** Records of the CSV body *)

Lemma end_quoted_app (q : bool) (a b : jsstring) :
  end_quoted q (a ++ b) = end_quoted (end_quoted q a) b.
Proof.
  revert q. induction a as [|c a IH]; intros q; simpl; [reflexivity|].
  apply IH.
Qed.




Lemma quoted_body (s : jsstring) :
  end_quoted true (replace_quotes s) = true /\
  record_breaks true (replace_quotes s) = 0.
Proof.
  induction s as [|c s [IE IR]]; simpl; [auto|].
  destruct (N.eqb c DQUOTE) eqn:Q; simpl.
  - auto.
  - rewrite Q, andb_false_r. auto.
Qed.








(** ** The counts of a 200 response *)

Lemma cand_exported_length (w : World CandidatesRoute.CandidateRow)
    (req : Request) :
  length (cand_exported w req) = length (cand_retained w req).
Proof.
  unfold cand_exported, cand_results, CandidatesRoute.results_of.
  rewrite length_map, length_mapi_from. reflexivity.
Qed.

Lemma camp_exported_length (w : World CampaignRoute.CampaignApplicationRow)
    (req : Request) :
  length (camp_exported w req) = length (camp_retained w req).
Proof.
  unfold camp_exported, camp_results, CampaignRoute.results_of.
  rewrite length_map, length_mapi_from. reflexivity.
Qed.






(** The body of that response of the campaign handler. *)
Example campaign_body_example :
  NextResponse.body
    (fst (CampaignRoute.GET (sample_world one_blank_application)
            (request_with [])))
  = NextResponse.Text
      (str "application_id,name,email,phone,position,segment,status,created_at,cv_key,cv_filename,cv_download_url,cv_error"
       ++ [LF]
       ++ str "a1,Ola Nordmann,ola@example.no,,elektriker,,new,2025-01-02T03:04:05Z,abc.pdf,cv.pdf,https://store.example/candidate-cvs/abc.pdf?token=t,").
Proof. vm_compute. reflexivity. Qed.

(** ** The role or position of a request *)

Lemma get_without (name k : jsstring) (sp : URLSearchParams) :
  get (without name sp) k = if jseqb k name then None else get sp k.
Proof.
  induction sp as [|[k0 v] sp IH]; simpl.
  - destruct (jseqb k name); reflexivity.
  - destruct (jseqb k0 name) eqn:E0; simpl.
    + apply jseqb_eq in E0. subst k0. rewrite IH.
      destruct (jseqb k name) eqn:E.
      * reflexivity.
      * destruct (jseqb name k) eqn:E'; [|reflexivity].
        apply jseqb_eq in E'. subst k. rewrite jseqb_refl in E. discriminate.
    + destruct (jseqb k0 k) eqn:E1.
      * apply jseqb_eq in E1. subst k0. rewrite E0. reflexivity.
      * exact IH.
Qed.

Lemma get_without_other (name k : jsstring) (sp : URLSearchParams) :
  jseqb k name = false -> get (without name sp) k = get sp k.
Proof. intros H. rewrite get_without, H. reflexivity. Qed.

Lemma get_without_same (name : jsstring) (sp : URLSearchParams) :
  get (without name sp) name = None.
Proof. rewrite get_without, jseqb_refl. reflexivity. Qed.

(** The expiry reads two parameters only. *)
Lemma parseExpiresInSeconds_ext (sp sp' : URLSearchParams) :
  get sp' (str "expiresInSeconds") = get sp (str "expiresInSeconds") ->
  get sp' (str "expiresInDays") = get sp (str "expiresInDays") ->
  parseExpiresInSeconds sp' = parseExpiresInSeconds sp.
Proof.
  intros H1 H2. unfold parseExpiresInSeconds. rewrite H1, H2. reflexivity.
Qed.

Lemma cand_role_supplied (w : World CandidatesRoute.CandidateRow)
    (sp : URLSearchParams) :
  CandidatesRoute.role_of w sp =
  toLowerCase w
    (trim (supplied_or_default
             [get sp (str "role"); get sp (str "position")]
             (str "elektriker"))).
Proof.
  unfold CandidatesRoute.role_of, supplied_or_default. cbn [fold_right].
  do 2 f_equal. unfold or_opt, or_else, truthy.
  destruct (get sp (str "role")) as [[|c s]|];
    destruct (get sp (str "position")) as [[|c' s']|]; reflexivity.
Qed.

Lemma camp_position_supplied (w : World CampaignRoute.CampaignApplicationRow)
    (sp : URLSearchParams) :
  CampaignRoute.position_of w sp =
  toLowerCase w
    (trim (supplied_or_default [get sp (str "position")] (str "elektriker"))).
Proof.
  unfold CampaignRoute.position_of, supplied_or_default. cbn [fold_right].
  reflexivity.
Qed.

(** What the handlers issue first once a role or position is there. *)
Lemma cand_first_effect (w : World CandidatesRoute.CandidateRow)
    (req : Request) :
  isAuthorized (process_env w) (get (searchParams req) (str "secret")) = true ->
  cand_role w req <> [] ->
  hd_error (snd (CandidatesRoute.GET w req))
  = Some (Query (str "candidates")
            (str "id, name, email, phone, primary_role, status, created_at, cv_key")
            (str "primary_role") (cand_role w req)).
Proof.
  intros A R.
  destruct (cand_GET_cases w req) as [[A' _]|[[_ [R' _]]|[[_ [_ [_ E]]]|H]]];
    try congruence.
  - rewrite E. reflexivity.
  - rewrite (cand_GET_rows H). reflexivity.
Qed.

Lemma camp_first_effect (w : World CampaignRoute.CampaignApplicationRow)
    (req : Request) :
  isAuthorized (process_env w) (get (searchParams req) (str "secret")) = true ->
  camp_position w req <> [] ->
  hd_error (snd (CampaignRoute.GET w req))
  = Some (Query (str "campaign_applications") CampaignRoute.COLUMNS
            (str "position") (camp_position w req)).
Proof.
  intros A R.
  destruct (camp_GET_cases w req) as [[A' _]|[[_ [R' _]]|[[_ [_ [_ E]]]|H]]];
    try congruence.
  - rewrite E. reflexivity.
  - rewrite (camp_GET_rows H). reflexivity.
Qed.

Lemma cand_missing_role (w : World CandidatesRoute.CandidateRow)
    (req : Request) :
  isAuthorized (process_env w) (get (searchParams req) (str "secret")) = true ->
  cand_role w req = [] ->
  CandidatesRoute.GET w req = (NextResponse.json (str "Missing role") 400, []).
Proof.
  intros A R.
  destruct (cand_GET_cases w req) as [[A' _]|[[_ [_ E]]|[[_ [R' _]]|[_ [R' _]]]]];
    congruence.
Qed.

Lemma camp_missing_position (w : World CampaignRoute.CampaignApplicationRow)
    (req : Request) :
  isAuthorized (process_env w) (get (searchParams req) (str "secret")) = true ->
  camp_position w req = [] ->
  CampaignRoute.GET w req
  = (NextResponse.json (str "Missing position") 400, []).
Proof.
  intros A R.
  destruct (camp_GET_cases w req) as [[A' _]|[[_ [_ E]]|[[_ [R' _]]|[_ [R' _]]]]];
    congruence.
Qed.

(** C8 (amended).  The role or position used for filtering is the
    supplied parameter, trimmed and lower-cased, where a parameter that
    is absent or empty counts as not supplied and the default
    elektriker stands in; the candidates handler reads role first and
    position second.  On an authorized request an empty normalized
    value is answered by 400 with the error Missing role (Missing
    position) and no effect at all, and a non-empty one is the value
    the table is queried with. *)
Theorem role_normalization :
  (forall (w : World CandidatesRoute.CandidateRow) (req : Request),
      cand_role w req
      = toLowerCase w
          (trim (supplied_or_default
                   [get (searchParams req) (str "role");
                    get (searchParams req) (str "position")]
                   (str "elektriker"))) /\
      (isAuthorized (process_env w) (get (searchParams req) (str "secret"))
       = true ->
       cand_role w req = [] ->
       CandidatesRoute.GET w req
       = ({| NextResponse.body := NextResponse.Json_error (str "Missing role");
             NextResponse.status := 400;
             NextResponse.headers := [] |}, [])) /\
      (isAuthorized (process_env w) (get (searchParams req) (str "secret"))
       = true ->
       cand_role w req <> [] ->
       hd_error (snd (CandidatesRoute.GET w req))
       = Some (Query (str "candidates")
                 (str "id, name, email, phone, primary_role, status, created_at, cv_key")
                 (str "primary_role") (cand_role w req))))
  /\
  (forall (w : World CampaignRoute.CampaignApplicationRow) (req : Request),
      camp_position w req
      = toLowerCase w
          (trim (supplied_or_default
                   [get (searchParams req) (str "position")]
                   (str "elektriker"))) /\
      (isAuthorized (process_env w) (get (searchParams req) (str "secret"))
       = true ->
       camp_position w req = [] ->
       CampaignRoute.GET w req
       = ({| NextResponse.body :=
               NextResponse.Json_error (str "Missing position");
             NextResponse.status := 400;
             NextResponse.headers := [] |}, [])) /\
      (isAuthorized (process_env w) (get (searchParams req) (str "secret"))
       = true ->
       camp_position w req <> [] ->
       hd_error (snd (CampaignRoute.GET w req))
       = Some (Query (str "campaign_applications") CampaignRoute.COLUMNS
                 (str "position") (camp_position w req)))).
Proof.
  split; intros w req.
  - split; [apply cand_role_supplied|].
    split; [apply cand_missing_role | apply cand_first_effect].
  - split; [apply camp_position_supplied|].
    split; [apply camp_missing_position | apply camp_first_effect].
Qed.

(** A role in capitals with spaces around it queries the table with
    elektriker; a position of spaces only is answered by 400. *)
Lemma role_normalization_witness :
  hd_error
    (snd (CandidatesRoute.GET (sample_world two_candidates)
            (request_with [(str "role", str " Elektriker ")])))
  = Some (Query (str "candidates")
            (str "id, name, email, phone, primary_role, status, created_at, cv_key")
            (str "primary_role") (str "elektriker")) /\
  CampaignRoute.GET (sample_world two_applications)
    (request_with [(str "position", str "   ")])
  = (NextResponse.json (str "Missing position") 400, []).
Proof.
  destruct role_normalization as [Hcand Hcamp]. split.
  - destruct (Hcand (sample_world two_candidates)
                (request_with [(str "role", str " Elektriker ")]))
      as [_ [_ H]].
    apply H; [reflexivity | vm_compute; discriminate].
  - destruct (Hcamp (sample_world two_applications)
                (request_with [(str "position", str "   ")]))
      as [_ [H _]].
    apply H; reflexivity.
Defined.

(** C8 as stated fails on a parameter that is present and empty.  The
    campaign handler given an empty position does not normalize it to
    the empty string and answer 400: it queries the table with the
    default and answers 200.  The candidates handler given an empty
    role and a position does not prefer the role: it uses the
    position. *)
Lemma role_normalization_counterexample :
  get (searchParams (request_with [(str "position", [])])) (str "position")
  = Some [] /\
  toLowerCase_ascii (trim []) = [] /\
  camp_position (sample_world two_applications)
    (request_with [(str "position", [])]) = str "elektriker" /\
  NextResponse.status
    (fst (CampaignRoute.GET (sample_world two_applications)
            (request_with [(str "position", [])]))) = 200%Z /\
  hd_error
    (snd (CampaignRoute.GET (sample_world two_applications)
            (request_with [(str "position", [])])))
  = Some (Query (str "campaign_applications") CampaignRoute.COLUMNS
            (str "position") (str "elektriker")) /\
  get (searchParams (request_with [(str "role", []);
                                   (str "position", str "Maskinist")]))
      (str "role") = Some [] /\
  cand_role (sample_world two_candidates)
    (request_with [(str "role", []); (str "position", str "Maskinist")])
  = str "maskinist".
Proof. repeat split. Qed.

(** ** An empty role or position *)

(** The candidates handler reads its request through seven parameters. *)
Lemma cand_GET_ext (w : World CandidatesRoute.CandidateRow)
    (req req' : Request) :
  get (searchParams req') (str "secret") = get (searchParams req) (str "secret") ->
  get (searchParams req') (str "includeMissing")
  = get (searchParams req) (str "includeMissing") ->
  get (searchParams req') (str "bucket") = get (searchParams req) (str "bucket") ->
  get (searchParams req') (str "expiresInSeconds")
  = get (searchParams req) (str "expiresInSeconds") ->
  get (searchParams req') (str "expiresInDays")
  = get (searchParams req) (str "expiresInDays") ->
  CandidatesRoute.role_of w (searchParams req')
  = CandidatesRoute.role_of w (searchParams req) ->
  CandidatesRoute.GET w req' = CandidatesRoute.GET w req.
Proof.
  intros Hs Hi Hb He Hd Hr.
  unfold CandidatesRoute.GET, CandidatesRoute.includeMissing_of,
    CandidatesRoute.bucket_of.
  cbv zeta. rewrite Hs, Hi, Hb, Hr, (parseExpiresInSeconds_ext _ _ He Hd).
  reflexivity.
Qed.

Lemma camp_GET_ext (w : World CampaignRoute.CampaignApplicationRow)
    (req req' : Request) :
  get (searchParams req') (str "secret") = get (searchParams req) (str "secret") ->
  get (searchParams req') (str "includeMissing")
  = get (searchParams req) (str "includeMissing") ->
  get (searchParams req') (str "bucket") = get (searchParams req) (str "bucket") ->
  get (searchParams req') (str "expiresInSeconds")
  = get (searchParams req) (str "expiresInSeconds") ->
  get (searchParams req') (str "expiresInDays")
  = get (searchParams req) (str "expiresInDays") ->
  CampaignRoute.position_of w (searchParams req')
  = CampaignRoute.position_of w (searchParams req) ->
  CampaignRoute.GET w req' = CampaignRoute.GET w req.
Proof.
  intros Hs Hi Hb He Hd Hr.
  unfold CampaignRoute.GET, CampaignRoute.includeMissing_of,
    CampaignRoute.bucket_of.
  cbv zeta. rewrite Hs, Hi, Hb, Hr, (parseExpiresInSeconds_ext _ _ He Hd).
  reflexivity.
Qed.

Lemma cand_empty_role_absent (w : World CandidatesRoute.CandidateRow)
    (req : Request) :
  get (searchParams req) (str "role") = Some [] ->
  CandidatesRoute.GET w req
  = CandidatesRoute.GET w
      {| searchParams := without (str "role") (searchParams req) |}.
Proof.
  intros H. symmetry.
  apply cand_GET_ext; cbn [searchParams];
    try (apply get_without_other; reflexivity).
  unfold CandidatesRoute.role_of.
  rewrite get_without_same, H, get_without_other by reflexivity. reflexivity.
Qed.

Lemma cand_empty_position_absent (w : World CandidatesRoute.CandidateRow)
    (req : Request) :
  get (searchParams req) (str "position") = Some [] ->
  CandidatesRoute.GET w req
  = CandidatesRoute.GET w
      {| searchParams := without (str "position") (searchParams req) |}.
Proof.
  intros H. symmetry.
  apply cand_GET_ext; cbn [searchParams];
    try (apply get_without_other; reflexivity).
  unfold CandidatesRoute.role_of.
  rewrite get_without_same, H, get_without_other by reflexivity.
  destruct (get (searchParams req) (str "role")) as [[|c s]|]; reflexivity.
Qed.

Lemma camp_empty_position_absent
    (w : World CampaignRoute.CampaignApplicationRow) (req : Request) :
  get (searchParams req) (str "position") = Some [] ->
  CampaignRoute.GET w req
  = CampaignRoute.GET w
      {| searchParams := without (str "position") (searchParams req) |}.
Proof.
  intros H. symmetry.
  apply camp_GET_ext; cbn [searchParams];
    try (apply get_without_other; reflexivity).
  unfold CampaignRoute.position_of.
  rewrite get_without_same, H. reflexivity.
Qed.

Lemma default_normalized (f : jsstring -> jsstring) :
  lawful_toLowerCase f -> f (trim (str "elektriker")) = str "elektriker".
Proof.
  intros [_ A]. rewrite A; reflexivity.
Qed.

(** An empty normalized value comes from a supplied value of white
    space only. *)
Lemma empty_normalized (f : jsstring -> jsstring)
    (supplied : list (option jsstring)) :
  lawful_toLowerCase f ->
  f (trim (supplied_or_default supplied (str "elektriker"))) = [] ->
  exists p,
    first_supplied supplied = Some p /\ p <> [] /\
    forallb isWhiteSpace p = true.
Proof.
  intros [N _] H. apply N, trim_nil_iff in H.
  induction supplied as [|[[|c s]|] rest IH]; cbn [supplied_or_default
    first_supplied fold_right] in *; auto.
  - discriminate.
  - exists (c :: s). repeat split; [discriminate | exact H].
Qed.

Lemma none_supplied (supplied : list (option jsstring)) (d : jsstring) :
  first_supplied supplied = None -> supplied_or_default supplied d = d.
Proof.
  induction supplied as [|[[|c s]|] rest IH];
    cbn [supplied_or_default first_supplied fold_right]; auto.
  discriminate.
Qed.

Lemma toLowerCase_ascii_lawful : lawful_toLowerCase toLowerCase_ascii.
Proof.
  split; [|reflexivity].
  intros s. unfold toLowerCase_ascii. split.
  - apply map_eq_nil.
  - intros ->. reflexivity.
Qed.

Lemma cand_status_400 (w : World CandidatesRoute.CandidateRow) (req : Request) :
  NextResponse.status (fst (CandidatesRoute.GET w req)) = 400%Z <->
  isAuthorized (process_env w) (get (searchParams req) (str "secret")) = true /\
  cand_role w req = [].
Proof.
  split.
  - intros S.
    destruct (cand_GET_cases w req)
      as [[_ E]|[[A [R _]]|[[_ [_ [_ E]]]|H]]]; auto.
    + rewrite E in S. discriminate.
    + rewrite E in S. discriminate.
    + rewrite (cand_GET_rows H) in S. discriminate.
  - intros [A R]. rewrite (cand_missing_role w req A R). reflexivity.
Qed.

Lemma camp_status_400 (w : World CampaignRoute.CampaignApplicationRow)
    (req : Request) :
  NextResponse.status (fst (CampaignRoute.GET w req)) = 400%Z <->
  isAuthorized (process_env w) (get (searchParams req) (str "secret")) = true /\
  camp_position w req = [].
Proof.
  split.
  - intros S.
    destruct (camp_GET_cases w req)
      as [[_ E]|[[A [R _]]|[[_ [_ [_ E]]]|H]]]; auto.
    + rewrite E in S. discriminate.
    + rewrite E in S. discriminate.
    + rewrite (camp_GET_rows H) in S. discriminate.
  - intros [A R]. rewrite (camp_missing_position w req A R). reflexivity.
Qed.

(** C10.  Given a lawful [toLowerCase], a role or position parameter
    that is present and empty is treated exactly as an absent one: the
    handler answers as it does to the request without that parameter;
    when no non-empty parameter is left the default elektriker is the
    role or position and the answer is not 400.  A 400 answer arises
    only from a supplied value that is not empty and holds white space
    only. *)
Theorem empty_parameter_is_absent :
  (forall (w : World CandidatesRoute.CandidateRow) (req : Request),
      lawful_toLowerCase (toLowerCase w) ->
      (get (searchParams req) (str "role") = Some [] ->
       CandidatesRoute.GET w req
       = CandidatesRoute.GET w
           {| searchParams := without (str "role") (searchParams req) |}) /\
      (get (searchParams req) (str "position") = Some [] ->
       CandidatesRoute.GET w req
       = CandidatesRoute.GET w
           {| searchParams := without (str "position") (searchParams req) |}) /\
      (first_supplied [get (searchParams req) (str "role");
                       get (searchParams req) (str "position")] = None ->
       cand_role w req = str "elektriker" /\
       NextResponse.status (fst (CandidatesRoute.GET w req)) <> 400%Z) /\
      (NextResponse.status (fst (CandidatesRoute.GET w req)) = 400%Z ->
       exists p,
         first_supplied [get (searchParams req) (str "role");
                         get (searchParams req) (str "position")] = Some p /\
         p <> [] /\ forallb isWhiteSpace p = true))
  /\
  (forall (w : World CampaignRoute.CampaignApplicationRow) (req : Request),
      lawful_toLowerCase (toLowerCase w) ->
      (get (searchParams req) (str "position") = Some [] ->
       CampaignRoute.GET w req
       = CampaignRoute.GET w
           {| searchParams := without (str "position") (searchParams req) |}) /\
      (first_supplied [get (searchParams req) (str "position")] = None ->
       camp_position w req = str "elektriker" /\
       NextResponse.status (fst (CampaignRoute.GET w req)) <> 400%Z) /\
      (NextResponse.status (fst (CampaignRoute.GET w req)) = 400%Z ->
       exists p,
         first_supplied [get (searchParams req) (str "position")] = Some p /\
         p <> [] /\ forallb isWhiteSpace p = true)).
Proof.
  split; intros w req L.
  - split; [apply cand_empty_role_absent|].
    split; [apply cand_empty_position_absent|].
    assert (R : first_supplied [get (searchParams req) (str "role");
                                get (searchParams req) (str "position")] = None ->
                cand_role w req = str "elektriker").
    { intros N. unfold cand_role.
      rewrite cand_role_supplied, (none_supplied _ _ N).
      apply default_normalized. exact L. }
    split.
    + intros N. split; [exact (R N)|].
      intros S. apply cand_status_400 in S. destruct S as [_ S].
      rewrite (R N) in S. discriminate.
    + intros S. apply cand_status_400 in S. destruct S as [_ S].
      unfold cand_role in S. rewrite cand_role_supplied in S.
      exact (empty_normalized _ L S).
  - split; [apply camp_empty_position_absent|].
    assert (R : first_supplied [get (searchParams req) (str "position")] = None ->
                camp_position w req = str "elektriker").
    { intros N. unfold camp_position.
      rewrite camp_position_supplied, (none_supplied _ _ N).
      apply default_normalized. exact L. }
    split.
    + intros N. split; [exact (R N)|].
      intros S. apply camp_status_400 in S. destruct S as [_ S].
      rewrite (R N) in S. discriminate.
    + intros S. apply camp_status_400 in S. destruct S as [_ S].
      unfold camp_position in S. rewrite camp_position_supplied in S.
      exact (empty_normalized _ L S).
Qed.

(** An empty position on the campaign handler and an empty role on the
    candidates handler: the answers are those to the requests without
    the parameter, and the position is the default. *)
Lemma empty_parameter_is_absent_witness :
  CandidatesRoute.GET (sample_world two_candidates)
    (request_with [(str "role", [])])
  = CandidatesRoute.GET (sample_world two_candidates)
      {| searchParams :=
           without (str "role")
             (searchParams (request_with [(str "role", [])])) |} /\
  camp_position (sample_world two_applications)
    (request_with [(str "position", [])]) = str "elektriker" /\
  NextResponse.status
    (fst (CampaignRoute.GET (sample_world two_applications)
            (request_with [(str "position", [])]))) <> 400%Z.
Proof.
  destruct empty_parameter_is_absent as [Hcand Hcamp]. split.
  - destruct (Hcand (sample_world two_candidates)
                (request_with [(str "role", [])]) toLowerCase_ascii_lawful)
      as [H _].
    exact (H eq_refl).
  - destruct (Hcamp (sample_world two_applications)
                (request_with [(str "position", [])]) toLowerCase_ascii_lawful)
      as [_ [H _]].
    exact (H eq_refl).
Defined.

(** The 400 answer is reached by a parameter of spaces, also when the
    role of spaces hides a usable position. *)
Example missing_role_reached :
  CandidatesRoute.GET (sample_world two_candidates)
    (request_with [(str "role", str "  "); (str "position", str "elektriker")])
  = (NextResponse.json (str "Missing role") 400, []) /\
  CampaignRoute.GET (sample_world two_applications)
    (request_with [(str "position", [9%N; 32%N; 160%N])])
  = (NextResponse.json (str "Missing position") 400, []).
Proof. split; reflexivity. Qed.

(** * Further properties of the handlers *)

(** ** Reading the CSV back *)

Lemma unquote_replace_quotes (s : jsstring) :
  unquote (replace_quotes s ++ [DQUOTE]) = s.
Proof.
  induction s as [|c s IH]; [reflexivity|].
  cbn [replace_quotes]. destruct (N.eqb c DQUOTE) eqn:Q.
  - apply N.eqb_eq in Q. subst c. cbn [app unquote].
    change (N.eqb DQUOTE DQUOTE) with true. cbn iota. rewrite IH. reflexivity.
  - cbn [app unquote]. rewrite Q, IH. reflexivity.
Qed.

Lemma plain_no_quote (c : code_unit) (s : jsstring) :
  test_special (c :: s) = false ->
  N.eqb c DQUOTE = false /\ test_special s = false.
Proof.
  unfold test_special. cbn [existsb]. intros H.
  apply orb_false_iff in H. destruct H as [Hc Hs]. split; [|exact Hs].
  unfold csv_special in Hc. rewrite !orb_false_iff in Hc. tauto.
Qed.

Lemma csvUnescape_plain (s : jsstring) :
  test_special s = false -> csvUnescape s = s.
Proof.
  destruct s as [|c s]; [reflexivity|]. intros H.
  destruct (plain_no_quote _ _ H) as [Q _]. unfold csvUnescape. rewrite Q.
  reflexivity.
Qed.

Lemma csvUnescape_escaped (s : jsstring) :
  csvUnescape (if test_special s
               then DQUOTE :: replace_quotes s ++ [DQUOTE]
               else s) = s.
Proof.
  destruct (test_special s) eqn:T.
  - unfold csvUnescape. change (N.eqb DQUOTE DQUOTE) with true. cbn iota.
    apply unquote_replace_quotes.
  - apply csvUnescape_plain. exact T.
Qed.

Lemma csvUnescape_csvEscape (v : jsvalue) :
  csvUnescape (csvEscape v) = field_text v.
Proof.
  destruct v as [| |s|r]; try reflexivity; apply csvUnescape_escaped.
Qed.

Lemma split_on_cons (sep : code_unit) (q : bool) (s : jsstring) :
  exists p ps, split_on sep q s = p :: ps.
Proof.
  revert q. induction s as [|c s IH]; intros q; cbn [split_on].
  - eauto.
  - destruct (N.eqb c DQUOTE).
    + destruct (IH (negb q)) as [p [ps ->]]. cbn. eauto.
    + destruct (N.eqb c sep && negb q); [eauto|].
      destruct (IH q) as [p [ps ->]]. cbn. eauto.
Qed.

Lemma sep_count_app (sep : code_unit) (q : bool) (a b : jsstring) :
  sep_count sep q (a ++ b)
  = sep_count sep q a + sep_count sep (end_quoted q a) b.
Proof.
  revert q. induction a as [|c a IH]; intros q; simpl; [reflexivity|].
  destruct (N.eqb c DQUOTE); [apply IH|].
  destruct (N.eqb c sep && negb q); rewrite IH; reflexivity.
Qed.

Lemma sealed_app (sep : code_unit) (a b : jsstring) :
  sealed sep a -> sealed sep b -> sealed sep (a ++ b).
Proof.
  intros [Ea Ca] [Eb Cb]. split.
  - rewrite end_quoted_app, Ea. exact Eb.
  - rewrite sep_count_app, Ea, Ca, Cb. reflexivity.
Qed.

(** A piece free of unquoted separators stays in one piece, glued to
    what the rest of the text starts with. *)
Lemma split_on_app (sep : code_unit) (q : bool) (a t : jsstring) :
  sep_count sep q a = 0 ->
  split_on sep q (a ++ t)
  = match split_on sep (end_quoted q a) t with
    | p :: ps => (a ++ p) :: ps
    | [] => [a]
    end.
Proof.
  revert q. induction a as [|c a IH]; intros q H.
  - cbn [app end_quoted].
    destruct (split_on_cons sep q t) as [p [ps ->]]. reflexivity.
  - cbn [app split_on end_quoted]. cbn [sep_count] in H.
    destruct (N.eqb c DQUOTE).
    + rewrite (IH (negb q) H).
      destruct (split_on_cons sep (end_quoted (negb q) a) t) as [p [ps ->]].
      reflexivity.
    + destruct (N.eqb c sep && negb q); [discriminate|].
      rewrite (IH q H).
      destruct (split_on_cons sep (end_quoted q a) t) as [p [ps ->]].
      reflexivity.
Qed.

Lemma split_on_sealed (sep : code_unit) (a : jsstring) :
  sealed sep a -> split_on sep false a = [a].
Proof.
  intros [E C]. rewrite <- (app_nil_r a) at 1.
  rewrite (@split_on_app sep false a [] C). cbn. rewrite app_nil_r. reflexivity.
Qed.

(** Splitting undoes joining, for sealed pieces. *)
Lemma split_on_join (sep : code_unit) (p : jsstring) (ps : list jsstring) :
  N.eqb sep DQUOTE = false ->
  sealed sep p -> Forall (sealed sep) ps ->
  split_on sep false (join [sep] (p :: ps)) = p :: ps.
Proof.
  intros NQ Hp Hps. revert p Hp.
  induction Hps as [|p' ps Hp' Hps IH]; intros p Hp.
  - apply split_on_sealed. exact Hp.
  - change (join [sep] (p :: p' :: ps))
      with (p ++ [sep] ++ join [sep] (p' :: ps)).
    destruct Hp as [E C].
    rewrite (@split_on_app sep false p ([sep] ++ join [sep] (p' :: ps)) C), E.
    cbn [app split_on]. rewrite NQ, N.eqb_refl. cbn [andb negb].
    rewrite (IH p' Hp'), app_nil_r. reflexivity.
Qed.

Lemma plain_sealed (sep : code_unit) (q : bool) (s : jsstring) :
  csv_special sep = true ->
  test_special s = false ->
  end_quoted q s = q /\ sep_count sep q s = 0.
Proof.
  intros Hsep. revert q. induction s as [|c s IH]; intros q H; [auto|].
  unfold test_special in H. cbn [existsb] in H.
  apply orb_false_iff in H. destruct H as [Hc Hs].
  assert (Q : N.eqb c DQUOTE = false).
  { unfold csv_special in Hc. rewrite !orb_false_iff in Hc. tauto. }
  assert (S : N.eqb c sep = false).
  { apply N.eqb_neq. intros ->. congruence. }
  cbn [end_quoted sep_count]. rewrite Q, S. cbn [andb]. apply IH. exact Hs.
Qed.

Lemma quoted_body_sealed (sep : code_unit) (s : jsstring) :
  N.eqb sep DQUOTE = false ->
  sep_count sep true (replace_quotes s) = 0.
Proof.
  intros NQ. induction s as [|c s IH]; [reflexivity|].
  cbn [replace_quotes]. destruct (N.eqb c DQUOTE) eqn:Q.
  - cbn [sep_count]. change (N.eqb DQUOTE DQUOTE) with true. cbn. exact IH.
  - cbn [sep_count]. rewrite Q. cbn [negb]. rewrite andb_false_r. exact IH.
Qed.

(** Every cell the encoder writes is sealed against commas and against
    line feeds. *)
Lemma csvEscape_sealed (sep : code_unit) (v : jsvalue) :
  csv_special sep = true -> N.eqb sep DQUOTE = false ->
  sealed sep (csvEscape v).
Proof.
  intros Hsep NQ.
  assert (H : forall s,
             sealed sep (if test_special s
                         then DQUOTE :: replace_quotes s ++ [DQUOTE]
                         else s)).
  { intros s. destruct (test_special s) eqn:T.
    - destruct (quoted_body s) as [E _].
      pose proof (@quoted_body_sealed sep s NQ) as C. unfold sealed.
      change (DQUOTE :: replace_quotes s ++ [DQUOTE])
        with ([DQUOTE] ++ replace_quotes s ++ [DQUOTE]).
      rewrite !end_quoted_app, !sep_count_app. cbn [end_quoted sep_count].
      change (N.eqb DQUOTE DQUOTE) with true. cbn [negb].
      rewrite E, C. cbn. auto.
    - apply (@plain_sealed sep false s Hsep T). }
  destruct v as [| |s|r]; try (split; reflexivity); apply H.
Qed.

Lemma join_sealed (sep glue : code_unit) (pieces : list jsstring) :
  sealed sep [glue] ->
  Forall (sealed sep) pieces -> sealed sep (join [glue] pieces).
Proof.
  intros G. induction 1 as [|p ps Hp Hps IH]; [split; reflexivity|].
  destruct ps as [|p' ps]; [exact Hp|].
  change (join [glue] (p :: p' :: ps))
    with (p ++ [glue] ++ join [glue] (p' :: ps)).
  apply sealed_app; [exact Hp|]. apply sealed_app; [exact G | exact IH].
Qed.

Unset Implicit Arguments.

(** X1.  What [csvEscape] writes reads back as the text of the value:
    the empty string for null and undefined, the string itself for a
    string, whatever quotes, commas and line breaks it holds; so two
    strings with the same cell are the same string. *)
Theorem csvEscape_round_trip :
  (forall v : jsvalue, csvUnescape (csvEscape v) = field_text v) /\
  (forall s t : jsstring,
      csvEscape (VString s) = csvEscape (VString t) -> s = t).
Proof.
  split; [exact csvUnescape_csvEscape|].
  intros s t H.
  pose proof (csvUnescape_csvEscape (VString s)) as Hs.
  pose proof (csvUnescape_csvEscape (VString t)) as Ht.
  rewrite H in Hs. cbn [field_text] in *. congruence.
Qed.

Lemma cells_sealed (sep : code_unit) (headers : list jsstring)
    (entries : list (jsstring * jsstring)) :
  csv_special sep = true -> N.eqb sep DQUOTE = false ->
  Forall (sealed sep)
    (map (fun header => csvEscape (property entries header)) headers).
Proof.
  intros Hs NQ. apply Forall_forall. intros c Hc. apply in_map_iff in Hc.
  destruct Hc as [h [<- _]]. apply csvEscape_sealed; assumption.
Qed.

(** X2.  A line written for a row reads back, field by field, as the
    texts of the row's properties in header order, provided there is at
    least one column. *)
Theorem csv_line_round_trip (headers : list jsstring)
    (entries : list (jsstring * jsstring)) :
  headers <> [] ->
  parse_record (csv_line headers entries)
  = map (fun header => field_text (property entries header)) headers.
Proof.
  intros N. unfold parse_record, csv_line.
  destruct headers as [|h hs]; [congruence|].
  pose proof (cells_sealed COMMA (h :: hs) entries eq_refl eq_refl) as S.
  cbn [map] in S. inversion S as [|c cs Hc Hcs]; subst.
  cbn [map]. rewrite (@split_on_join COMMA _ _ eq_refl Hc Hcs).
  cbn [map]. rewrite csvUnescape_csvEscape, map_map. f_equal.
  apply map_ext. intros a. apply csvUnescape_csvEscape.
Qed.

Lemma csv_line_round_trip_witness :
  parse_record
    (csv_line [str "name"; str "note"; str "missing"]
       [(str "note", str "a,b" ++ [LF; DQUOTE] ++ str "c");
        (str "name", str "Kari")])
  = [str "Kari"; str "a,b" ++ [LF; DQUOTE] ++ str "c"; []].
Proof.
  apply (csv_line_round_trip [str "name"; str "note"; str "missing"]
           [(str "note", str "a,b" ++ [LF; DQUOTE] ++ str "c");
            (str "name", str "Kari")]).
  discriminate.
Defined.

Lemma plain_headers_sealed (sep : code_unit) (headers : list jsstring) :
  csv_special sep = true ->
  Forall (fun h => test_special h = false) headers ->
  Forall (sealed sep) headers.
Proof.
  intros Hs H. apply Forall_forall. intros h Hh.
  rewrite Forall_forall in H. apply (@plain_sealed sep false h Hs (H h Hh)).
Qed.

(** The whole document reads back as the header names followed by the
    field texts of every result. *)
Lemma csvContent_round_trip (headers : list jsstring)
    (results : list (list (jsstring * jsstring))) :
  headers <> [] ->
  Forall (fun h => test_special h = false) headers ->
  parse_csv (csvContent headers results)
  = headers
    :: map (fun entries =>
              map (fun header => field_text (property entries header)) headers)
         results.
Proof.
  intros N P. unfold parse_csv, csvContent, csvLines.
  assert (HL : sealed LF (join [COMMA] headers)).
  { apply join_sealed; [split; reflexivity|].
    apply plain_headers_sealed; [reflexivity | exact P]. }
  assert (RL : Forall (sealed LF) (map (csv_line headers) results)).
  { apply Forall_forall. intros l Hl. apply in_map_iff in Hl.
    destruct Hl as [e [<- _]]. unfold csv_line.
    apply join_sealed; [split; reflexivity|].
    apply cells_sealed; reflexivity. }
  rewrite (@split_on_join LF _ _ eq_refl HL RL). cbn [map]. f_equal.
  - unfold parse_record. destruct headers as [|h hs]; [congruence|].
    pose proof (plain_headers_sealed COMMA (h :: hs) eq_refl P) as S.
    inversion S as [|c cs Hc Hcs]; subst.
    rewrite (@split_on_join COMMA _ _ eq_refl Hc Hcs).
    rewrite <- (map_id (h :: hs)) at 2. apply map_ext_in.
    intros a Ha. rewrite Forall_forall in P.
    apply csvUnescape_plain. exact (P a Ha).
  - rewrite map_map. apply map_ext. intros e.
    apply csv_line_round_trip. exact N.
Qed.

Lemma cand_entries_fields (x : CandidatesRoute.ExportRow.t) :
  map (fun header =>
         field_text (property (CandidatesRoute.ExportRow.entries x) header))
    CandidatesRoute.headers
  = cand_fields x.
Proof. reflexivity. Qed.

Lemma camp_entries_fields (x : CampaignRoute.ExportRow.t) :
  map (fun header =>
         field_text (property (CampaignRoute.ExportRow.entries x) header))
    CampaignRoute.headers
  = camp_fields x.
Proof. reflexivity. Qed.

(** X3.  The body of every 200 response reads back as the header names
    followed, row for row and field for field, by the exported rows:
    nothing a field holds (commas, quotes, line breaks) moves a value to
    another column or record. *)
Theorem body_round_trip :
  (forall (w : World CandidatesRoute.CandidateRow) (req : Request),
      NextResponse.status (fst (CandidatesRoute.GET w req)) = 200%Z ->
      exists content,
        NextResponse.body (fst (CandidatesRoute.GET w req))
        = NextResponse.Text content /\
        parse_csv content
        = CandidatesRoute.headers :: map cand_fields (cand_exported w req))
  /\
  (forall (w : World CampaignRoute.CampaignApplicationRow) (req : Request),
      NextResponse.status (fst (CampaignRoute.GET w req)) = 200%Z ->
      exists content,
        NextResponse.body (fst (CampaignRoute.GET w req))
        = NextResponse.Text content /\
        parse_csv content
        = CampaignRoute.headers :: map camp_fields (camp_exported w req)).
Proof.
  split; intros w req S.
  - apply cand_status_200 in S. rewrite (cand_GET_rows S). cbn [fst].
    eexists. split; [reflexivity|].
    rewrite csvContent_round_trip;
      [|discriminate | repeat constructor].
    f_equal. rewrite map_map. apply map_ext. exact cand_entries_fields.
  - apply camp_status_200 in S. rewrite (camp_GET_rows S). cbn [fst].
    eexists. split; [reflexivity|].
    rewrite csvContent_round_trip;
      [|discriminate | repeat constructor].
    f_equal. rewrite map_map. apply map_ext. exact camp_entries_fields.
Qed.

(** A row whose name holds a quote, a comma and a line feed. *)
Lemma body_round_trip_witness :
  exists content,
    NextResponse.body
      (fst (CandidatesRoute.GET (sample_world tricky_candidates)
              (request_with [])))
    = NextResponse.Text content /\
    parse_csv content
    = CandidatesRoute.headers
      :: map cand_fields
           (cand_exported (sample_world tricky_candidates) (request_with [])).
Proof.
  exact (proj1 body_round_trip (sample_world tricky_candidates)
           (request_with []) eq_refl).
Defined.

(** ** The four answers *)

Lemma cand_status_403 (w : World CandidatesRoute.CandidateRow) (req : Request) :
  NextResponse.status (fst (CandidatesRoute.GET w req)) = 403%Z <->
  isAuthorized (process_env w) (get (searchParams req) (str "secret")) = false.
Proof.
  split.
  - intros S.
    destruct (cand_GET_cases w req)
      as [[A _]|[[_ [_ E]]|[[_ [_ [_ E]]]|H]]]; auto.
    + rewrite E in S. discriminate.
    + rewrite E in S. discriminate.
    + rewrite (cand_GET_rows H) in S. discriminate.
  - intros A.
    destruct (cand_GET_cases w req)
      as [[_ E]|[[A' _]|[[A' _]|[A' _]]]]; try congruence.
    rewrite E. reflexivity.
Qed.

Lemma camp_status_403 (w : World CampaignRoute.CampaignApplicationRow)
    (req : Request) :
  NextResponse.status (fst (CampaignRoute.GET w req)) = 403%Z <->
  isAuthorized (process_env w) (get (searchParams req) (str "secret")) = false.
Proof.
  split.
  - intros S.
    destruct (camp_GET_cases w req)
      as [[A _]|[[_ [_ E]]|[[_ [_ [_ E]]]|H]]]; auto.
    + rewrite E in S. discriminate.
    + rewrite E in S. discriminate.
    + rewrite (camp_GET_rows H) in S. discriminate.
  - intros A.
    destruct (camp_GET_cases w req)
      as [[_ E]|[[A' _]|[[A' _]|[A' _]]]]; try congruence.
    rewrite E. reflexivity.
Qed.

Lemma cand_status_500 (w : World CandidatesRoute.CandidateRow) (req : Request) :
  NextResponse.status (fst (CandidatesRoute.GET w req)) = 500%Z <->
  isAuthorized (process_env w) (get (searchParams req) (str "secret")) = true /\
  cand_role w req <> [] /\
  error (CandidatesRoute.fetch w (cand_role w req)) <> None.
Proof.
  split.
  - intros S.
    destruct (cand_GET_cases w req)
      as [[_ E]|[[_ [_ E]]|[[A [R [F _]]]|H]]]; auto.
    + rewrite E in S. discriminate.
    + rewrite E in S. discriminate.
    + rewrite (cand_GET_rows H) in S. discriminate.
  - intros [A [R F]].
    destruct (cand_GET_cases w req)
      as [[A' _]|[[_ [R' _]]|[[_ [_ [_ E]]]|[_ [_ F']]]]]; try congruence.
    rewrite E. reflexivity.
Qed.

Lemma camp_status_500 (w : World CampaignRoute.CampaignApplicationRow)
    (req : Request) :
  NextResponse.status (fst (CampaignRoute.GET w req)) = 500%Z <->
  isAuthorized (process_env w) (get (searchParams req) (str "secret")) = true /\
  camp_position w req <> [] /\
  error (CampaignRoute.fetch w (camp_position w req)) <> None.
Proof.
  split.
  - intros S.
    destruct (camp_GET_cases w req)
      as [[_ E]|[[_ [_ E]]|[[A [R [F _]]]|H]]]; auto.
    + rewrite E in S. discriminate.
    + rewrite E in S. discriminate.
    + rewrite (camp_GET_rows H) in S. discriminate.
  - intros [A [R F]].
    destruct (camp_GET_cases w req)
      as [[A' _]|[[_ [R' _]]|[[_ [_ [_ E]]]|[_ [_ F']]]]]; try congruence.
    rewrite E. reflexivity.
Qed.


(** ** Answers other than 200 *)

(** X5.  An answer other than 200 carries a JSON error and no header
    set by the handler, and the object store was never called for it.
    For 403 and 400 nothing at all was called or logged; for 500 the
    table was queried once and one error line was logged. *)
Theorem error_answers :
  (forall (w : World CandidatesRoute.CandidateRow) (req : Request),
      NextResponse.status (fst (CandidatesRoute.GET w req)) <> 200%Z ->
      (exists msg,
          NextResponse.body (fst (CandidatesRoute.GET w req))
          = NextResponse.Json_error msg) /\
      NextResponse.headers (fst (CandidatesRoute.GET w req)) = [] /\
      store_calls (snd (CandidatesRoute.GET w req)) = [] /\
      (NextResponse.status (fst (CandidatesRoute.GET w req)) <> 500%Z ->
       snd (CandidatesRoute.GET w req) = []) /\
      (NextResponse.status (fst (CandidatesRoute.GET w req)) = 500%Z ->
       CandidatesRoute.GET w req
       = (NextResponse.json (str "Kunne ikke hente kandidater") 500,
          [CandidatesRoute.fetch_effect (cand_role w req);
           ConsoleError CandidatesRoute.TAG])))
  /\
  (forall (w : World CampaignRoute.CampaignApplicationRow) (req : Request),
      NextResponse.status (fst (CampaignRoute.GET w req)) <> 200%Z ->
      (exists msg,
          NextResponse.body (fst (CampaignRoute.GET w req))
          = NextResponse.Json_error msg) /\
      NextResponse.headers (fst (CampaignRoute.GET w req)) = [] /\
      store_calls (snd (CampaignRoute.GET w req)) = [] /\
      (NextResponse.status (fst (CampaignRoute.GET w req)) <> 500%Z ->
       snd (CampaignRoute.GET w req) = []) /\
      (NextResponse.status (fst (CampaignRoute.GET w req)) = 500%Z ->
       CampaignRoute.GET w req
       = (NextResponse.json (str "Kunne ikke hente kampanjesoknader") 500,
          [CampaignRoute.fetch_effect (camp_position w req);
           ConsoleError CampaignRoute.TAG]))).
Proof.
  split; intros w req S.
  - destruct (cand_GET_cases w req)
      as [[_ E]|[[_ [_ E]]|[[_ [_ [_ E]]]|H]]].
    + rewrite E. cbn. repeat split; eauto; intros; discriminate.
    + rewrite E. cbn. repeat split; eauto; intros; discriminate.
    + rewrite E. cbn. repeat split; eauto. intros N. congruence.
    + exfalso. apply S. apply cand_status_200. exact H.
  - destruct (camp_GET_cases w req)
      as [[_ E]|[[_ [_ E]]|[[_ [_ [_ E]]]|H]]].
    + rewrite E. cbn. repeat split; eauto; intros; discriminate.
    + rewrite E. cbn. repeat split; eauto; intros; discriminate.
    + rewrite E. cbn. repeat split; eauto. intros N. congruence.
    + exfalso. apply S. apply camp_status_200. exact H.
Qed.

(** A table whose query fails, and a request without a secret. *)
Lemma error_answers_witness :
  CandidatesRoute.GET (failing_table_world CandidatesRoute.CandidateRow)
    (request_with [])
  = (NextResponse.json (str "Kunne ikke hente kandidater") 500,
     [CandidatesRoute.fetch_effect (str "elektriker");
      ConsoleError CandidatesRoute.TAG]) /\
  snd (CampaignRoute.GET (sample_world two_applications)
         {| searchParams := [(str "position", str "elektriker")] |}) = [].
Proof.
  destruct error_answers as [Hcand Hcamp]. split.
  - assert (S : NextResponse.status
                  (fst (CandidatesRoute.GET
                          (failing_table_world CandidatesRoute.CandidateRow)
                          (request_with []))) <> 200%Z)
      by (vm_compute; discriminate).
    destruct (Hcand _ _ S) as [_ [_ [_ [_ H]]]]. apply H. reflexivity.
  - assert (S : NextResponse.status
                  (fst (CampaignRoute.GET (sample_world two_applications)
                          {| searchParams :=
                               [(str "position", str "elektriker")] |}))
                <> 200%Z)
      by (vm_compute; discriminate).
    destruct (Hcamp _ _ S) as [_ [_ [_ [H _]]]]. apply H.
    vm_compute. discriminate.
Defined.

(** ** Store calls and warnings of a 200 answer *)

Lemma store_calls_app (a b : list effect) :
  store_calls (a ++ b) = store_calls a ++ store_calls b.
Proof. apply filter_app. Qed.

Lemma resolve_cv_calls (Row : Type) (w : World Row) (tag id : jsstring)
    (i : nat) (bucket key : jsstring) (expiresIn : number) :
  store_calls (snd (resolve_cv w tag id i bucket key expiresIn))
  = if needs_signingb key then [CreateSignedUrl bucket key expiresIn] else [].
Proof.
  unfold resolve_cv, needs_signingb. destruct key as [|c key]; [reflexivity|].
  destruct (startsWith (c :: key) (str "http://")
            || startsWith (c :: key) (str "https://")); [reflexivity|].
  cbn [negb].
  destruct (sign_error (createSignedUrl w i bucket (c :: key) expiresIn));
    reflexivity.
Qed.

Lemma results_calls (Row X : Type) (ref : Row -> option jsstring)
    (f : nat -> Row -> X * list effect) (bucket : jsstring)
    (expiresIn : number) (rows : list Row) (i : nat) :
  (forall k row,
      store_calls (snd (f k row))
      = if needs_signingb (trimmed_or_empty (ref row))
        then [CreateSignedUrl bucket (trimmed_or_empty (ref row)) expiresIn]
        else []) ->
  store_calls (concat (map snd (mapi_from f i rows)))
  = map (fun row => CreateSignedUrl bucket (trimmed_or_empty (ref row))
                      expiresIn)
      (filter (fun row => needs_signingb (trimmed_or_empty (ref row))) rows).
Proof.
  intros H. revert i. induction rows as [|row rows IH]; intros i;
    [reflexivity|].
  cbn [mapi_from map concat filter]. rewrite store_calls_app, H, IH.
  destruct (needs_signingb (trimmed_or_empty (ref row))); reflexivity.
Qed.

(** X6.  On a 200 answer the object store is called once for each
    retained row whose trimmed key is neither empty nor an http or
    https URL, in row order, and for no other row; every call names the
    request's bucket and the resolved expiry, a whole number of seconds
    between 1 and 31536000. *)
Theorem store_calls_of_export :
  (forall (w : World CandidatesRoute.CandidateRow) (req : Request),
      NextResponse.status (fst (CandidatesRoute.GET w req)) = 200%Z ->
      store_calls (snd (CandidatesRoute.GET w req))
      = map (fun row =>
               CreateSignedUrl (CandidatesRoute.bucket_of (searchParams req))
                 (trimmed_or_empty (CandidatesRoute.cv_key row))
                 (parseExpiresInSeconds (searchParams req)))
          (filter (fun row =>
                     needs_signingb
                       (trimmed_or_empty (CandidatesRoute.cv_key row)))
             (cand_retained w req)) /\
      length (store_calls (snd (CandidatesRoute.GET w req)))
      <= length (cand_retained w req) /\
      exists z, parseExpiresInSeconds (searchParams req) = Finite z /\
                (0 < z <= 31536000)%Z)
  /\
  (forall (w : World CampaignRoute.CampaignApplicationRow) (req : Request),
      NextResponse.status (fst (CampaignRoute.GET w req)) = 200%Z ->
      store_calls (snd (CampaignRoute.GET w req))
      = map (fun row =>
               CreateSignedUrl (CampaignRoute.bucket_of (searchParams req))
                 (trimmed_or_empty (CampaignRoute.cv_url row))
                 (parseExpiresInSeconds (searchParams req)))
          (filter (fun row =>
                     needs_signingb
                       (trimmed_or_empty (CampaignRoute.cv_url row)))
             (camp_retained w req)) /\
      length (store_calls (snd (CampaignRoute.GET w req)))
      <= length (camp_retained w req) /\
      exists z, parseExpiresInSeconds (searchParams req) = Finite z /\
                (0 < z <= 31536000)%Z).
Proof.
  split; intros w req S.
  - apply cand_status_200 in S. rewrite (cand_GET_rows S). cbn [snd].
    assert (E : store_calls
                  (CandidatesRoute.fetch_effect (cand_role w req)
                   :: concat (map snd (cand_results w req)))
                = store_calls (concat (map snd (cand_results w req))))
      by reflexivity.
    rewrite E. unfold cand_results, CandidatesRoute.results_of.
    rewrite (results_calls _ _ CandidatesRoute.cv_key _
               (CandidatesRoute.bucket_of (searchParams req))
               (parseExpiresInSeconds (searchParams req))).
    + split; [reflexivity|]. split.
      * rewrite length_map. apply filter_length_le.
      * rewrite parseExpiresInSeconds_resolved. eexists.
        split; [reflexivity | apply resolved_expiry_bounds].
    + intros k row.
      destruct (cand_export_row_resolved w
                  (CandidatesRoute.bucket_of (searchParams req))
                  (parseExpiresInSeconds (searchParams req))
                  (cand_role w req) k row) as [_ [_ ->]].
      apply resolve_cv_calls.
  - apply camp_status_200 in S. rewrite (camp_GET_rows S). cbn [snd].
    assert (E : store_calls
                  (CampaignRoute.fetch_effect (camp_position w req)
                   :: concat (map snd (camp_results w req)))
                = store_calls (concat (map snd (camp_results w req))))
      by reflexivity.
    rewrite E. unfold camp_results, CampaignRoute.results_of.
    rewrite (results_calls _ _ CampaignRoute.cv_url _
               (CampaignRoute.bucket_of (searchParams req))
               (parseExpiresInSeconds (searchParams req))).
    + split; [reflexivity|]. split.
      * rewrite length_map. apply filter_length_le.
      * rewrite parseExpiresInSeconds_resolved. eexists.
        split; [reflexivity | apply resolved_expiry_bounds].
    + intros k row.
      destruct (camp_export_row_resolved w
                  (CampaignRoute.bucket_of (searchParams req))
                  (parseExpiresInSeconds (searchParams req))
                  (camp_position w req) k row) as [_ [_ ->]].
      apply resolve_cv_calls.
Qed.

(** Of four rows kept by includeMissing=true, two lead to a store call. *)
Lemma store_calls_of_export_witness :
  store_calls
    (snd (CandidatesRoute.GET (sample_world mixed_candidates)
            (request_with [(str "includeMissing", str "true");
                           (str "expiresInDays", str "2")])))
  = [ CreateSignedUrl (str "candidate-cvs") (str "missing.pdf") (Finite 172800);
      CreateSignedUrl (str "candidate-cvs") (str "abc.pdf") (Finite 172800) ] /\
  length
    (store_calls
       (snd (CampaignRoute.GET (sample_world mixed_applications)
               (request_with [(str "bucket", str " cv ")]))))
  <= 3.
Proof.
  destruct store_calls_of_export as [Hcand Hcamp]. split.
  - destruct (Hcand (sample_world mixed_candidates)
                (request_with [(str "includeMissing", str "true");
                               (str "expiresInDays", str "2")]) eq_refl)
      as [H _].
    rewrite H. reflexivity.
  - destruct (Hcamp (sample_world mixed_applications)
                (request_with [(str "bucket", str " cv ")]) eq_refl)
      as [_ [H _]].
    exact H.
Defined.

(** An effect of the rows is an effect of one row's callback. *)
Lemma in_row_effects (A X : Type) (f : nat -> A -> X * list effect)
    (l : list A) (i : nat) (e : effect) :
  In e (concat (map snd (mapi_from f i l))) <->
  exists k a, nth_error l k = Some a /\ In e (snd (f (i + k) a)).
Proof.
  revert i. induction l as [|a l IH]; intros i.
  - cbn. split; [contradiction|]. intros [[|k] [a [H _]]]; discriminate.
  - cbn [mapi_from map concat]. rewrite in_app_iff, IH. split.
    + intros [H | [k [b [Hk Hb]]]].
      * exists 0, a. rewrite Nat.add_0_r. split; [reflexivity | exact H].
      * exists (S k), b. rewrite Nat.add_succ_r. split; assumption.
    + intros [[|k] [b [Hk Hb]]].
      * cbn in Hk. injection Hk as <-. rewrite Nat.add_0_r in Hb.
        left; exact Hb.
      * right. exists k, b. rewrite Nat.add_succ_r in Hb. split; assumption.
Qed.

(** The warnings of one key's resolution. *)
Lemma resolve_cv_warning (Row : Type) (w : World Row) (tag id : jsstring)
    (i : nat) (bucket key : jsstring) (expiresIn : number)
    (tag' id' msg : jsstring) :
  In (ConsoleWarn tag' id' msg)
     (snd (resolve_cv w tag id i bucket key expiresIn)) ->
  tag' = tag /\ id' = id /\
  msg = snd (fst (resolve_cv w tag id i bucket key expiresIn)) /\
  fst (fst (resolve_cv w tag id i bucket key expiresIn)) = [] /\
  exists e, sign_error (createSignedUrl w i bucket key expiresIn) = Some e /\
            message e = msg.
Proof.
  unfold resolve_cv. destruct key as [|c key]; [contradiction|].
  destruct (startsWith (c :: key) (str "http://")
            || startsWith (c :: key) (str "https://")); [contradiction|].
  destruct (sign_error (createSignedUrl w i bucket (c :: key) expiresIn))
    as [e|]; cbn.
  - intros [H | [H | []]]; [discriminate|].
    injection H as <- <- <-. repeat split. eauto.
  - intros [H | []]. discriminate.
Qed.

Lemma resolve_cv_error_logged (Row : Type) (w : World Row) (tag id : jsstring)
    (i : nat) (bucket key : jsstring) (expiresIn : number) :
  snd (fst (resolve_cv w tag id i bucket key expiresIn)) <> [] ->
  In (ConsoleWarn tag id
        (snd (fst (resolve_cv w tag id i bucket key expiresIn))))
     (snd (resolve_cv w tag id i bucket key expiresIn)).
Proof.
  unfold resolve_cv. destruct key as [|c key]; [cbn; congruence|].
  destruct (startsWith (c :: key) (str "http://")
            || startsWith (c :: key) (str "https://")); [cbn; congruence|].
  destruct (sign_error (createSignedUrl w i bucket (c :: key) expiresIn))
    as [e|]; cbn; [auto | congruence].
Qed.

(** The exported rows, one by one. *)
Lemma cand_exported_nth (w : World CandidatesRoute.CandidateRow)
    (req : Request) (i : nat) :
  nth_error (cand_exported w req) i
  = option_map
      (fun row =>
         fst (CandidatesRoute.export_row w
                (CandidatesRoute.bucket_of (searchParams req))
                (parseExpiresInSeconds (searchParams req))
                (cand_role w req) i row))
      (nth_error (cand_retained w req) i).
Proof.
  unfold cand_exported, cand_results, CandidatesRoute.results_of.
  apply nth_error_exported.
Qed.

Lemma camp_exported_nth (w : World CampaignRoute.CampaignApplicationRow)
    (req : Request) (i : nat) :
  nth_error (camp_exported w req) i
  = option_map
      (fun row =>
         fst (CampaignRoute.export_row w
                (CampaignRoute.bucket_of (searchParams req))
                (parseExpiresInSeconds (searchParams req))
                (camp_position w req) i row))
      (nth_error (camp_retained w req) i).
Proof.
  unfold camp_exported, camp_results, CampaignRoute.results_of.
  apply nth_error_exported.
Qed.

(** X7.  On a 200 answer every warning logged belongs to a retained
    row: it carries the handler's tag, that row's identifier and the
    text exported as that row's [cv_error], and that row is exported
    without a download URL.  Conversely every row exported with a
    non-empty [cv_error] has its warning in the log. *)
Theorem warnings_match_errors :
  (forall (w : World CandidatesRoute.CandidateRow) (req : Request),
      NextResponse.status (fst (CandidatesRoute.GET w req)) = 200%Z ->
      (forall tag id msg : jsstring,
          In (ConsoleWarn tag id msg) (snd (CandidatesRoute.GET w req)) ->
          tag = CandidatesRoute.TAG /\
          exists i row x,
            nth_error (cand_retained w req) i = Some row /\
            nth_error (cand_exported w req) i = Some x /\
            id = CandidatesRoute.id row /\
            CandidatesRoute.ExportRow.cv_error x = msg /\
            CandidatesRoute.ExportRow.cv_download_url x = []) /\
      (forall (i : nat) (row : CandidatesRoute.CandidateRow)
              (x : CandidatesRoute.ExportRow.t),
          nth_error (cand_retained w req) i = Some row ->
          nth_error (cand_exported w req) i = Some x ->
          CandidatesRoute.ExportRow.cv_error x <> [] ->
          In (ConsoleWarn CandidatesRoute.TAG (CandidatesRoute.id row)
                (CandidatesRoute.ExportRow.cv_error x))
             (snd (CandidatesRoute.GET w req))))
  /\
  (forall (w : World CampaignRoute.CampaignApplicationRow) (req : Request),
      NextResponse.status (fst (CampaignRoute.GET w req)) = 200%Z ->
      (forall tag id msg : jsstring,
          In (ConsoleWarn tag id msg) (snd (CampaignRoute.GET w req)) ->
          tag = CampaignRoute.TAG /\
          exists i row x,
            nth_error (camp_retained w req) i = Some row /\
            nth_error (camp_exported w req) i = Some x /\
            id = CampaignRoute.id row /\
            CampaignRoute.ExportRow.cv_error x = msg /\
            CampaignRoute.ExportRow.cv_download_url x = []) /\
      (forall (i : nat) (row : CampaignRoute.CampaignApplicationRow)
              (x : CampaignRoute.ExportRow.t),
          nth_error (camp_retained w req) i = Some row ->
          nth_error (camp_exported w req) i = Some x ->
          CampaignRoute.ExportRow.cv_error x <> [] ->
          In (ConsoleWarn CampaignRoute.TAG (CampaignRoute.id row)
                (CampaignRoute.ExportRow.cv_error x))
             (snd (CampaignRoute.GET w req)))).
Proof.
  split; intros w req S.
  - apply cand_status_200 in S. rewrite (cand_GET_rows S). cbn [snd]. split.
    + intros tag id msg [H | H]; [discriminate|].
      unfold cand_results, CandidatesRoute.results_of in H.
      apply in_row_effects in H. destruct H as [k [row [Hk He]]].
      cbn [Nat.add] in He.
      destruct (cand_export_row_resolved w
                  (CandidatesRoute.bucket_of (searchParams req))
                  (parseExpiresInSeconds (searchParams req))
                  (cand_role w req) k row) as [U [E Sn]].
      rewrite Sn in He. apply resolve_cv_warning in He.
      destruct He as [-> [-> [-> [Hu _]]]]. split; [reflexivity|].
      exists k, row. eexists. rewrite cand_exported_nth, Hk.
      split; [reflexivity|]. split; [reflexivity|]. split; [reflexivity|].
      split; [exact E | rewrite U; exact Hu].
    + intros i row x Hi Hx Ne. right.
      rewrite cand_exported_nth, Hi in Hx. injection Hx as <-.
      unfold cand_results, CandidatesRoute.results_of.
      apply in_row_effects. exists i, row. split; [exact Hi|].
      cbn [Nat.add].
      destruct (cand_export_row_resolved w
                  (CandidatesRoute.bucket_of (searchParams req))
                  (parseExpiresInSeconds (searchParams req))
                  (cand_role w req) i row) as [_ [E Sn]].
      rewrite E in Ne |- *. rewrite Sn.
      apply resolve_cv_error_logged. exact Ne.
  - apply camp_status_200 in S. rewrite (camp_GET_rows S). cbn [snd]. split.
    + intros tag id msg [H | H]; [discriminate|].
      unfold camp_results, CampaignRoute.results_of in H.
      apply in_row_effects in H. destruct H as [k [row [Hk He]]].
      cbn [Nat.add] in He.
      destruct (camp_export_row_resolved w
                  (CampaignRoute.bucket_of (searchParams req))
                  (parseExpiresInSeconds (searchParams req))
                  (camp_position w req) k row) as [U [E Sn]].
      rewrite Sn in He. apply resolve_cv_warning in He.
      destruct He as [-> [-> [-> [Hu _]]]]. split; [reflexivity|].
      exists k, row. eexists. rewrite camp_exported_nth, Hk.
      split; [reflexivity|]. split; [reflexivity|]. split; [reflexivity|].
      split; [exact E | rewrite U; exact Hu].
    + intros i row x Hi Hx Ne. right.
      rewrite camp_exported_nth, Hi in Hx. injection Hx as <-.
      unfold camp_results, CampaignRoute.results_of.
      apply in_row_effects. exists i, row. split; [exact Hi|].
      cbn [Nat.add].
      destruct (camp_export_row_resolved w
                  (CampaignRoute.bucket_of (searchParams req))
                  (parseExpiresInSeconds (searchParams req))
                  (camp_position w req) i row) as [_ [E Sn]].
      rewrite E in Ne |- *. rewrite Sn.
      apply resolve_cv_error_logged. exact Ne.
Qed.

(** The store misses the object of the first of two rows: the one
    warning logged names that row. *)
Lemma warnings_match_errors_witness :
  In (ConsoleWarn CandidatesRoute.TAG (str "c1") (str "Object not found"))
     (snd (CandidatesRoute.GET (sample_world two_candidates)
             (request_with []))) /\
  In (ConsoleWarn CampaignRoute.TAG (str "a1") (str "Object not found"))
     (snd (CampaignRoute.GET (sample_world two_applications)
             (request_with []))).
Proof.
  destruct warnings_match_errors as [Hcand Hcamp]. split.
  - destruct (Hcand (sample_world two_candidates) (request_with []) eq_refl)
      as [_ H].
    apply (H 0 (cand_row "c1" (Some (str "missing.pdf")))
             (fst (CandidatesRoute.export_row (sample_world two_candidates)
                     (str "candidate-cvs") (Finite 31536000)
                     (str "elektriker") 0
                     (cand_row "c1" (Some (str "missing.pdf")))))
             eq_refl eq_refl).
    vm_compute. discriminate.
  - destruct (Hcamp (sample_world two_applications) (request_with []) eq_refl)
      as [_ H].
    apply (H 0 (camp_row "a1" (Some (str "missing.pdf")))
             (fst (CampaignRoute.export_row (sample_world two_applications)
                     (str "candidate-cvs") (Finite 31536000)
                     (str "elektriker") 0
                     (camp_row "a1" (Some (str "missing.pdf")))))
             eq_refl eq_refl).
    vm_compute. discriminate.
Defined.

(** ** The exported rows *)

Lemma cand_export_row_plain (w : World CandidatesRoute.CandidateRow)
    (bucket : jsstring) (expiresIn : number) (role : jsstring) (i : nat)
    (row : CandidatesRoute.CandidateRow) :
  cand_fields (fst (CandidatesRoute.export_row w bucket expiresIn role i row))
  = [ CandidatesRoute.id row;
      or_else (CandidatesRoute.name row) [];
      or_else (CandidatesRoute.email row) [];
      or_else (CandidatesRoute.phone row) [];
      or_else (CandidatesRoute.primary_role row) role;
      or_else (CandidatesRoute.status row) [];
      or_else (CandidatesRoute.created_at row) [];
      trimmed_or_empty (CandidatesRoute.cv_key row);
      fst (fst (resolve_cv w CandidatesRoute.TAG (CandidatesRoute.id row) i
                  bucket (trimmed_or_empty (CandidatesRoute.cv_key row))
                  expiresIn));
      snd (fst (resolve_cv w CandidatesRoute.TAG (CandidatesRoute.id row) i
                  bucket (trimmed_or_empty (CandidatesRoute.cv_key row))
                  expiresIn)) ].
Proof.
  unfold CandidatesRoute.export_row.
  destruct (resolve_cv _ _ _ _ _ _ _) as [[u e] eff]. reflexivity.
Qed.

Lemma camp_export_row_plain (w : World CampaignRoute.CampaignApplicationRow)
    (bucket : jsstring) (expiresIn : number) (position : jsstring) (i : nat)
    (row : CampaignRoute.CampaignApplicationRow) :
  camp_fields
    (fst (CampaignRoute.export_row w bucket expiresIn position i row))
  = [ CampaignRoute.id row;
      or_else (CampaignRoute.name row) [];
      or_else (CampaignRoute.email row) [];
      or_else (CampaignRoute.phone row) [];
      or_else (CampaignRoute.position row) position;
      or_else (CampaignRoute.segment row) [];
      or_else (CampaignRoute.status row) [];
      or_else (CampaignRoute.created_at row) [];
      trimmed_or_empty (CampaignRoute.cv_url row);
      or_else (CampaignRoute.cv_filename row) [];
      fst (fst (resolve_cv w CampaignRoute.TAG (CampaignRoute.id row) i
                  bucket (trimmed_or_empty (CampaignRoute.cv_url row))
                  expiresIn));
      snd (fst (resolve_cv w CampaignRoute.TAG (CampaignRoute.id row) i
                  bucket (trimmed_or_empty (CampaignRoute.cv_url row))
                  expiresIn)) ].
Proof.
  unfold CampaignRoute.export_row.
  destruct (resolve_cv _ _ _ _ _ _ _) as [[u e] eff]. reflexivity.
Qed.

Lemma cand_exported_in (w : World CandidatesRoute.CandidateRow)
    (req : Request) (x : CandidatesRoute.ExportRow.t) :
  In x (cand_exported w req) ->
  exists i row,
    nth_error (cand_retained w req) i = Some row /\
    x = fst (CandidatesRoute.export_row w
               (CandidatesRoute.bucket_of (searchParams req))
               (parseExpiresInSeconds (searchParams req))
               (cand_role w req) i row).
Proof.
  intros H. apply In_nth_error in H. destruct H as [i H].
  rewrite cand_exported_nth in H.
  destruct (nth_error (cand_retained w req) i) as [row|] eqn:E; [|discriminate].
  injection H as <-. exists i, row. split; [exact E | reflexivity].
Qed.

Lemma camp_exported_in (w : World CampaignRoute.CampaignApplicationRow)
    (req : Request) (x : CampaignRoute.ExportRow.t) :
  In x (camp_exported w req) ->
  exists i row,
    nth_error (camp_retained w req) i = Some row /\
    x = fst (CampaignRoute.export_row w
               (CampaignRoute.bucket_of (searchParams req))
               (parseExpiresInSeconds (searchParams req))
               (camp_position w req) i row).
Proof.
  intros H. apply In_nth_error in H. destruct H as [i H].
  rewrite camp_exported_nth in H.
  destruct (nth_error (camp_retained w req) i) as [row|] eqn:E; [|discriminate].
  injection H as <-. exists i, row. split; [exact E | reflexivity].
Qed.

Lemma map_exported (A X B : Type) (f : nat -> A -> X * list effect)
    (g : X -> B) (h : A -> B) (l : list A) (i : nat) :
  (forall k a, g (fst (f k a)) = h a) ->
  map g (map fst (mapi_from f i l)) = map h l.
Proof.
  intros H. revert i. induction l as [|a l IH]; intros i; [reflexivity|].
  cbn [mapi_from map]. rewrite H, IH. reflexivity.
Qed.

(** X8.  The data records of a 200 answer follow the retained rows in
    the order the store returned them: read back from the body, the
    first column is the list of their identifiers and the key column
    the list of their trimmed file references. *)
Theorem records_follow_rows :
  (forall (w : World CandidatesRoute.CandidateRow) (req : Request),
      NextResponse.status (fst (CandidatesRoute.GET w req)) = 200%Z ->
      exists content,
        NextResponse.body (fst (CandidatesRoute.GET w req))
        = NextResponse.Text content /\
        map (fun record => nth 0 record []) (tl (parse_csv content))
        = map CandidatesRoute.id (cand_retained w req) /\
        map (fun record => nth 7 record []) (tl (parse_csv content))
        = map (fun row => trimmed_or_empty (CandidatesRoute.cv_key row))
            (cand_retained w req))
  /\
  (forall (w : World CampaignRoute.CampaignApplicationRow) (req : Request),
      NextResponse.status (fst (CampaignRoute.GET w req)) = 200%Z ->
      exists content,
        NextResponse.body (fst (CampaignRoute.GET w req))
        = NextResponse.Text content /\
        map (fun record => nth 0 record []) (tl (parse_csv content))
        = map CampaignRoute.id (camp_retained w req) /\
        map (fun record => nth 8 record []) (tl (parse_csv content))
        = map (fun row => trimmed_or_empty (CampaignRoute.cv_url row))
            (camp_retained w req)).
Proof.
  split; intros w req S.
  - apply cand_status_200 in S. rewrite (cand_GET_rows S). cbn [fst].
    eexists. split; [reflexivity|].
    rewrite csvContent_round_trip; [|discriminate | repeat constructor].
    cbn [tl]. rewrite !map_map.
    unfold cand_exported, cand_results, CandidatesRoute.results_of.
    split.
    + rewrite <- (map_map CandidatesRoute.ExportRow.entries
                    (fun e => nth 0 (map (fun header =>
                                 field_text (property e header))
                               CandidatesRoute.headers) [])).
      rewrite map_map. apply map_exported. intros k a.
      rewrite cand_entries_fields, cand_export_row_plain. reflexivity.
    + rewrite <- (map_map CandidatesRoute.ExportRow.entries
                    (fun e => nth 7 (map (fun header =>
                                 field_text (property e header))
                               CandidatesRoute.headers) [])).
      rewrite map_map. apply map_exported. intros k a.
      rewrite cand_entries_fields, cand_export_row_plain. reflexivity.
  - apply camp_status_200 in S. rewrite (camp_GET_rows S). cbn [fst].
    eexists. split; [reflexivity|].
    rewrite csvContent_round_trip; [|discriminate | repeat constructor].
    cbn [tl]. rewrite !map_map.
    unfold camp_exported, camp_results, CampaignRoute.results_of.
    split.
    + rewrite <- (map_map CampaignRoute.ExportRow.entries
                    (fun e => nth 0 (map (fun header =>
                                 field_text (property e header))
                               CampaignRoute.headers) [])).
      rewrite map_map. apply map_exported. intros k a.
      rewrite camp_entries_fields, camp_export_row_plain. reflexivity.
    + rewrite <- (map_map CampaignRoute.ExportRow.entries
                    (fun e => nth 8 (map (fun header =>
                                 field_text (property e header))
                               CampaignRoute.headers) [])).
      rewrite map_map. apply map_exported. intros k a.
      rewrite camp_entries_fields, camp_export_row_plain. reflexivity.
Qed.

(** Two rows, the second kept by includeMissing=true without a key. *)
Lemma records_follow_rows_witness :
  exists content,
    NextResponse.body
      (fst (CampaignRoute.GET (sample_world one_blank_application)
              (request_with [(str "includeMissing", str "true")])))
    = NextResponse.Text content /\
    map (fun record => nth 0 record []) (tl (parse_csv content))
    = [str "a1"; str "a2"].
Proof.
  destruct (proj2 records_follow_rows (sample_world one_blank_application)
              (request_with [(str "includeMissing", str "true")]) eq_refl)
    as [content [B [I _]]].
  exists content. split; [exact B | exact I].
Defined.





(** The outcome of resolving one key. *)
Lemma resolve_cv_shape (Row : Type) (w : World Row) (tag id : jsstring)
    (i : nat) (bucket key : jsstring) (expiresIn : number) :
  (fst (fst (resolve_cv w tag id i bucket key expiresIn)) = [] \/
   snd (fst (resolve_cv w tag id i bucket key expiresIn)) = []) /\
  (key = [] ->
   fst (fst (resolve_cv w tag id i bucket key expiresIn)) = [] /\
   snd (fst (resolve_cv w tag id i bucket key expiresIn)) = []) /\
  (snd (fst (resolve_cv w tag id i bucket key expiresIn)) <> [] ->
   needs_signing key) /\
  (fst (fst (resolve_cv w tag id i bucket key expiresIn)) <> [] ->
   needs_signing key \/
   fst (fst (resolve_cv w tag id i bucket key expiresIn)) = key).
Proof.
  unfold resolve_cv, needs_signing. destruct key as [|c key].
  - cbn. repeat split; auto; congruence.
  - destruct (startsWith (c :: key) (str "http://")) eqn:H1;
      [cbn; repeat split; auto; try congruence; discriminate|].
    destruct (startsWith (c :: key) (str "https://")) eqn:H2;
      [cbn; repeat split; auto; try congruence; discriminate|].
    cbn [orb].
    destruct (sign_error (createSignedUrl w i bucket (c :: key) expiresIn));
      cbn; repeat split; auto; try congruence; try discriminate;
      intros _; left; repeat split; discriminate.
Qed.

(** X10.  No exported row carries both a download URL and an error
    text.  A row with an empty key carries neither; an error text only
    stands on a row whose key needed signing; and a download URL is
    either the key itself or stands on a row whose key needed signing. *)
Theorem url_or_error :
  (forall (w : World CandidatesRoute.CandidateRow) (req : Request)
          (x : CandidatesRoute.ExportRow.t),
      In x (cand_exported w req) ->
      (CandidatesRoute.ExportRow.cv_download_url x = [] \/
       CandidatesRoute.ExportRow.cv_error x = []) /\
      (CandidatesRoute.ExportRow.cv_key x = [] ->
       CandidatesRoute.ExportRow.cv_download_url x = [] /\
       CandidatesRoute.ExportRow.cv_error x = []) /\
      (CandidatesRoute.ExportRow.cv_error x <> [] ->
       needs_signing (CandidatesRoute.ExportRow.cv_key x)) /\
      (CandidatesRoute.ExportRow.cv_download_url x <> [] ->
       needs_signing (CandidatesRoute.ExportRow.cv_key x) \/
       CandidatesRoute.ExportRow.cv_download_url x
       = CandidatesRoute.ExportRow.cv_key x))
  /\
  (forall (w : World CampaignRoute.CampaignApplicationRow) (req : Request)
          (x : CampaignRoute.ExportRow.t),
      In x (camp_exported w req) ->
      (CampaignRoute.ExportRow.cv_download_url x = [] \/
       CampaignRoute.ExportRow.cv_error x = []) /\
      (CampaignRoute.ExportRow.cv_key x = [] ->
       CampaignRoute.ExportRow.cv_download_url x = [] /\
       CampaignRoute.ExportRow.cv_error x = []) /\
      (CampaignRoute.ExportRow.cv_error x <> [] ->
       needs_signing (CampaignRoute.ExportRow.cv_key x)) /\
      (CampaignRoute.ExportRow.cv_download_url x <> [] ->
       needs_signing (CampaignRoute.ExportRow.cv_key x) \/
       CampaignRoute.ExportRow.cv_download_url x
       = CampaignRoute.ExportRow.cv_key x)).
Proof.
  split; intros w req x Hx.
  - apply cand_exported_in in Hx. destruct Hx as [i [row [_ ->]]].
    pose proof (cand_export_row_plain w
                  (CandidatesRoute.bucket_of (searchParams req))
                  (parseExpiresInSeconds (searchParams req))
                  (cand_role w req) i row) as E.
    unfold cand_fields in E.
    injection E as _ _ _ _ _ _ _ K U R. rewrite K, U, R.
    apply resolve_cv_shape.
  - apply camp_exported_in in Hx. destruct Hx as [i [row [_ ->]]].
    pose proof (camp_export_row_plain w
                  (CampaignRoute.bucket_of (searchParams req))
                  (parseExpiresInSeconds (searchParams req))
                  (camp_position w req) i row) as E.
    unfold camp_fields in E.
    injection E as _ _ _ _ _ _ _ _ K _ U R. rewrite K, U, R.
    apply resolve_cv_shape.
Qed.

(** The row whose object the store misses carries the error and no
    URL. *)
Lemma url_or_error_witness :
  CandidatesRoute.ExportRow.cv_download_url
    (fst (CandidatesRoute.export_row (sample_world two_candidates)
            (str "candidate-cvs") (Finite 31536000) (str "elektriker") 0
            (cand_row "c1" (Some (str "missing.pdf"))))) = [] \/
  CandidatesRoute.ExportRow.cv_error
    (fst (CandidatesRoute.export_row (sample_world two_candidates)
            (str "candidate-cvs") (Finite 31536000) (str "elektriker") 0
            (cand_row "c1" (Some (str "missing.pdf"))))) = [].
Proof.
  apply (proj1 url_or_error (sample_world two_candidates) (request_with [])).
  left. reflexivity.
Defined.

(** ** Trimmed keys *)

Lemma trimStart_idempotent (s : jsstring) :
  trimStart (trimStart s) = trimStart s.
Proof.
  pose proof (trimStart_head s) as H.
  destruct (trimStart s) as [|c t]; [reflexivity|].
  cbn [trimStart]. rewrite H. reflexivity.
Qed.

Lemma trimEnd_idempotent (s : jsstring) : trimEnd (trimEnd s) = trimEnd s.
Proof.
  unfold trimEnd. rewrite rev_involutive, trimStart_idempotent. reflexivity.
Qed.

Lemma trimEnd_keeps_head (t : jsstring) :
  match t with c :: _ => isWhiteSpace c = false | [] => True end ->
  trimStart (trimEnd t) = trimEnd t.
Proof.
  destruct t as [|c t]; [reflexivity|]. intros H.
  assert (R : trimStart (rev [c]) = rev [c]) by (cbn; rewrite H; reflexivity).
  change (c :: t) with ([c] ++ t).
  rewrite (@trimEnd_app_keep [c] t R). cbn [app trimStart]. rewrite H.
  reflexivity.
Qed.

(** Trimming a trimmed string changes nothing. *)
Lemma trim_idempotent (s : jsstring) : trim (trim s) = trim s.
Proof.
  unfold trim. rewrite (trimEnd_keeps_head _ (trimStart_head s)).
  apply trimEnd_idempotent.
Qed.

Lemma trimmed_or_empty_trimmed (ref : option jsstring) :
  trim (trimmed_or_empty ref) = trimmed_or_empty ref.
Proof.
  destruct ref as [s|]; [|reflexivity].
  rewrite trimmed_or_empty_Some. apply trim_idempotent.
Qed.

Lemma filtered_nonblank (Row : Type) (ref : Row -> option jsstring)
    (rows : list Row) (row : Row) :
  In row (filter (fun r => has_reference (ref r)) rows) ->
  trimmed_or_empty (ref row) <> [].
Proof.
  intros H. apply filter_In in H. destruct H as [_ H].
  rewrite has_reference_blank in H. apply negb_true_iff in H.
  intros E. apply trimmed_or_empty_nil_iff in E. congruence.
Qed.

(** X11.  The key column never holds surrounding white space: the
    exported key is a fixed point of trim.  Without includeMissing=true
    it is never empty either, so every exported row then carries a
    usable reference. *)
Theorem exported_keys_trimmed :
  (forall (w : World CandidatesRoute.CandidateRow) (req : Request)
          (x : CandidatesRoute.ExportRow.t),
      In x (cand_exported w req) ->
      trim (CandidatesRoute.ExportRow.cv_key x)
      = CandidatesRoute.ExportRow.cv_key x /\
      (get (searchParams req) (str "includeMissing") <> Some (str "true") ->
       CandidatesRoute.ExportRow.cv_key x <> []))
  /\
  (forall (w : World CampaignRoute.CampaignApplicationRow) (req : Request)
          (x : CampaignRoute.ExportRow.t),
      In x (camp_exported w req) ->
      trim (CampaignRoute.ExportRow.cv_key x)
      = CampaignRoute.ExportRow.cv_key x /\
      (get (searchParams req) (str "includeMissing") <> Some (str "true") ->
       CampaignRoute.ExportRow.cv_key x <> [])).
Proof.
  split; intros w req x Hx.
  - apply cand_exported_in in Hx. destruct Hx as [i [row [Hi ->]]].
    pose proof (f_equal (fun l => nth 7 l [])
                  (cand_export_row_plain w
                     (CandidatesRoute.bucket_of (searchParams req))
                     (parseExpiresInSeconds (searchParams req))
                     (cand_role w req) i row)) as E.
    cbn [nth cand_fields] in E. rewrite E.
    split; [apply trimmed_or_empty_trimmed|].
    intros F. apply nth_error_In in Hi.
    unfold cand_retained, CandidatesRoute.filtered_of in Hi.
    destruct (CandidatesRoute.includeMissing_of (searchParams req)) eqn:M.
    + apply flag_exactly_true in M. contradiction.
    + exact (filtered_nonblank _ CandidatesRoute.cv_key _ _ Hi).
  - apply camp_exported_in in Hx. destruct Hx as [i [row [Hi ->]]].
    pose proof (f_equal (fun l => nth 8 l [])
                  (camp_export_row_plain w
                     (CampaignRoute.bucket_of (searchParams req))
                     (parseExpiresInSeconds (searchParams req))
                     (camp_position w req) i row)) as E.
    cbn [nth camp_fields] in E. rewrite E.
    split; [apply trimmed_or_empty_trimmed|].
    intros F. apply nth_error_In in Hi.
    unfold camp_retained, CampaignRoute.filtered_of in Hi.
    destruct (CampaignRoute.includeMissing_of (searchParams req)) eqn:M.
    + apply flag_exactly_true in M. contradiction.
    + exact (filtered_nonblank _ CampaignRoute.cv_url _ _ Hi).
Qed.

(** A key stored with spaces around it is exported without them. *)
Lemma exported_keys_trimmed_witness :
  trim (CandidatesRoute.ExportRow.cv_key
          (fst (CandidatesRoute.export_row (sample_world tricky_candidates)
                  (str "candidate-cvs") (Finite 31536000) (str "elektriker") 0
                  (nth 0 tricky_candidates (cand_row "c0" None)))))
  = CandidatesRoute.ExportRow.cv_key
      (fst (CandidatesRoute.export_row (sample_world tricky_candidates)
              (str "candidate-cvs") (Finite 31536000) (str "elektriker") 0
              (nth 0 tricky_candidates (cand_row "c0" None)))).
Proof.
  apply (proj1 exported_keys_trimmed (sample_world tricky_candidates)
           (request_with [])).
  left. reflexivity.
Defined.

(** ** What a handler reads of its request *)

(** X12.  Each handler reads its request through the first value of
    the parameters it names and through nothing else: two requests that
    agree on those give the same answer and the same effects.  The
    campaign handler does not read role. *)
Theorem reads_named_parameters_only :
  (forall (w : World CandidatesRoute.CandidateRow) (req req' : Request),
      (forall k, In k cand_read_names ->
                 get (searchParams req') k = get (searchParams req) k) ->
      CandidatesRoute.GET w req' = CandidatesRoute.GET w req)
  /\
  (forall (w : World CampaignRoute.CampaignApplicationRow)
          (req req' : Request),
      (forall k, In k camp_read_names ->
                 get (searchParams req') k = get (searchParams req) k) ->
      CampaignRoute.GET w req' = CampaignRoute.GET w req).
Proof.
  split; intros w req req' H.
  - apply cand_GET_ext; try (apply H; cbn; tauto).
    unfold CandidatesRoute.role_of.
    rewrite (H (str "role")), (H (str "position")) by (cbn; tauto).
    reflexivity.
  - apply camp_GET_ext; try (apply H; cbn; tauto).
    unfold CampaignRoute.position_of.
    rewrite (H (str "position")) by (cbn; tauto). reflexivity.
Qed.

(** An unknown parameter, a repeated parameter, and a role given to the
    campaign handler change nothing. *)
Lemma reads_named_parameters_only_witness :
  CandidatesRoute.GET (sample_world two_candidates)
    (request_with [(str "page", str "2"); (str "role", str "elektriker");
                   (str "role", str "maskinist")])
  = CandidatesRoute.GET (sample_world two_candidates)
      (request_with [(str "role", str "elektriker")]) /\
  CampaignRoute.GET (sample_world two_applications)
    (request_with [(str "role", str "maskinist")])
  = CampaignRoute.GET (sample_world two_applications) (request_with []).
Proof.
  destruct reads_named_parameters_only as [Hcand Hcamp]. split.
  - apply Hcand. intros k Hk. cbn in Hk.
    repeat (destruct Hk as [<- | Hk]; [reflexivity|]). contradiction.
  - apply Hcamp. intros k Hk. cbn in Hk.
    repeat (destruct Hk as [<- | Hk]; [reflexivity|]). contradiction.
Defined.

(** ** The headers of a 200 answer *)

Lemma before_T_app (date time : jsstring) :
  forallb (fun c => negb (N.eqb c 84)) date = true ->
  before_T (date ++ 84%N :: time) = date.
Proof.
  induction date as [|c date IH]; cbn [forallb app before_T]; intros H.
  - reflexivity.
  - apply andb_true_iff in H. destruct H as [Hc Hd].
    apply negb_true_iff in Hc. rewrite Hc, (IH Hd). reflexivity.
Qed.

(** X13.  A 200 answer is served as a CSV attachment that is never
    cached, and when the clock reads an ISO timestamp its file name is
    candidates-ROLE-cvs-DATE.csv (campaign-POSITION-cvs-DATE.csv), with
    the normalized role and the date part of the timestamp. *)
Theorem attachment_headers :
  (forall (w : World CandidatesRoute.CandidateRow) (req : Request)
          (date time : jsstring),
      NextResponse.status (fst (CandidatesRoute.GET w req)) = 200%Z ->
      toISOString_now w = date ++ 84%N :: time ->
      forallb (fun c => negb (N.eqb c 84)) date = true ->
      NextResponse.header
        (NextResponse.headers (fst (CandidatesRoute.GET w req)))
        (str "Content-Disposition")
      = Some (str "attachment; filename=" ++ [DQUOTE]
              ++ str "candidates-" ++ cand_role w req ++ str "-cvs-"
              ++ date ++ str ".csv" ++ [DQUOTE]) /\
      NextResponse.header
        (NextResponse.headers (fst (CandidatesRoute.GET w req)))
        (str "Content-Type") = Some (str "text/csv; charset=utf-8") /\
      NextResponse.header
        (NextResponse.headers (fst (CandidatesRoute.GET w req)))
        (str "Cache-Control")
      = Some (str "no-store, no-cache, must-revalidate"))
  /\
  (forall (w : World CampaignRoute.CampaignApplicationRow) (req : Request)
          (date time : jsstring),
      NextResponse.status (fst (CampaignRoute.GET w req)) = 200%Z ->
      toISOString_now w = date ++ 84%N :: time ->
      forallb (fun c => negb (N.eqb c 84)) date = true ->
      NextResponse.header
        (NextResponse.headers (fst (CampaignRoute.GET w req)))
        (str "Content-Disposition")
      = Some (str "attachment; filename=" ++ [DQUOTE]
              ++ str "campaign-" ++ camp_position w req ++ str "-cvs-"
              ++ date ++ str ".csv" ++ [DQUOTE]) /\
      NextResponse.header
        (NextResponse.headers (fst (CampaignRoute.GET w req)))
        (str "Content-Type") = Some (str "text/csv; charset=utf-8") /\
      NextResponse.header
        (NextResponse.headers (fst (CampaignRoute.GET w req)))
        (str "Cache-Control")
      = Some (str "no-store, no-cache, must-revalidate")).
Proof.
  split; intros w req date time S C D.
  - apply cand_status_200 in S. rewrite (cand_GET_rows S). cbn [fst].
    unfold CandidatesRoute.ok_response. cbn [NextResponse.headers].
    rewrite C, (before_T_app date time D).
    split; [|split; reflexivity].
    transitivity
      (Some (content_disposition
               (str "candidates-" ++ cand_role w req ++ str "-cvs-" ++ date ++ str ".csv")));
      [reflexivity|].
    unfold content_disposition. rewrite <- !app_assoc. reflexivity.
  - apply camp_status_200 in S. rewrite (camp_GET_rows S). cbn [fst].
    unfold CampaignRoute.ok_response. cbn [NextResponse.headers].
    rewrite C, (before_T_app date time D).
    split; [|split; reflexivity].
    transitivity
      (Some (content_disposition
               (str "campaign-" ++ camp_position w req ++ str "-cvs-" ++ date ++ str ".csv")));
      [reflexivity|].
    unfold content_disposition. rewrite <- !app_assoc. reflexivity.
Qed.

(** The clock of the samples reads the fourth of March 2025. *)
Lemma attachment_headers_witness :
  NextResponse.header
    (NextResponse.headers
       (fst (CandidatesRoute.GET (sample_world two_candidates)
               (request_with [(str "role", str " Maskinist ")]))))
    (str "Content-Disposition")
  = Some (str "attachment; filename=" ++ [DQUOTE]
          ++ str "candidates-maskinist-cvs-2025-03-04.csv" ++ [DQUOTE]) /\
  NextResponse.header
    (NextResponse.headers
       (fst (CampaignRoute.GET (sample_world two_applications)
               (request_with []))))
    (str "Content-Disposition")
  = Some (str "attachment; filename=" ++ [DQUOTE]
          ++ str "campaign-elektriker-cvs-2025-03-04.csv" ++ [DQUOTE]).
Proof.
  destruct attachment_headers as [Hcand Hcamp]. split.
  - destruct (Hcand (sample_world two_candidates)
                (request_with [(str "role", str " Maskinist ")])
                (str "2025-03-04") (str "05:06:07.000Z")
                eq_refl eq_refl eq_refl) as [H _].
    rewrite H. reflexivity.
  - destruct (Hcamp (sample_world two_applications) (request_with [])
                (str "2025-03-04") (str "05:06:07.000Z")
                eq_refl eq_refl eq_refl) as [H _].
    rewrite H. reflexivity.
Defined.

(** ** Counts *)

Lemma filter_idempotent (A : Type) (f : A -> bool) (l : list A) :
  filter f (filter f l) = filter f l.
Proof.
  induction l as [|a l IH]; [reflexivity|].
  cbn [filter]. destruct (f a) eqn:E; [|exact IH].
  cbn [filter]. rewrite E, IH. reflexivity.
Qed.

(** X14.  The handlers export no more rows than they fetch, and only
    fetched rows; with includeMissing=true they export as many as they
    fetch; and filtering an already filtered list removes nothing
    more. *)
Theorem exported_within_fetched :
  (forall (w : World CandidatesRoute.CandidateRow) (req : Request),
      length (cand_exported w req) <= length (cand_fetched w req) /\
      (forall row, In row (cand_retained w req) ->
                   In row (cand_fetched w req)) /\
      (get (searchParams req) (str "includeMissing") = Some (str "true") ->
       length (cand_exported w req) = length (cand_fetched w req)) /\
      forall (b : bool) (rows : list CandidatesRoute.CandidateRow),
        CandidatesRoute.filtered_of b (CandidatesRoute.filtered_of b rows)
        = CandidatesRoute.filtered_of b rows)
  /\
  (forall (w : World CampaignRoute.CampaignApplicationRow) (req : Request),
      length (camp_exported w req) <= length (camp_fetched w req) /\
      (forall row, In row (camp_retained w req) ->
                   In row (camp_fetched w req)) /\
      (get (searchParams req) (str "includeMissing") = Some (str "true") ->
       length (camp_exported w req) = length (camp_fetched w req)) /\
      forall (b : bool) (rows : list CampaignRoute.CampaignApplicationRow),
        CampaignRoute.filtered_of b (CampaignRoute.filtered_of b rows)
        = CampaignRoute.filtered_of b rows).
Proof.
  split; intros w req.
  - rewrite cand_exported_length.
    unfold cand_retained, CandidatesRoute.filtered_of.
    split; [|split; [|split]].
    + destruct (CandidatesRoute.includeMissing_of (searchParams req));
        [apply Nat.le_refl | apply filter_length_le].
    + intros row.
      destruct (CandidatesRoute.includeMissing_of (searchParams req));
        [auto|]. intros H. apply filter_In in H. tauto.
    + intros F. apply flag_exactly_true in F.
      unfold CandidatesRoute.includeMissing_of. rewrite F. reflexivity.
    + intros [|] rows; [reflexivity | apply filter_idempotent].
  - rewrite camp_exported_length.
    unfold camp_retained, CampaignRoute.filtered_of.
    split; [|split; [|split]].
    + destruct (CampaignRoute.includeMissing_of (searchParams req));
        [apply Nat.le_refl | apply filter_length_le].
    + intros row.
      destruct (CampaignRoute.includeMissing_of (searchParams req));
        [auto|]. intros H. apply filter_In in H. tauto.
    + intros F. apply flag_exactly_true in F.
      unfold CampaignRoute.includeMissing_of. rewrite F. reflexivity.
    + intros [|] rows; [reflexivity | apply filter_idempotent].
Qed.

Lemma exported_within_fetched_witness :
  length (cand_exported (sample_world mixed_candidates)
            (request_with [(str "includeMissing", str "true")]))
  = length (cand_fetched (sample_world mixed_candidates)
              (request_with [(str "includeMissing", str "true")])).
Proof.
  destruct (proj1 exported_within_fetched (sample_world mixed_candidates)
              (request_with [(str "includeMissing", str "true")]))
    as [_ [_ [H _]]].
  exact (H eq_refl).
Defined.

(** ** The gate, seen from the request *)

(** X15.  Outside development mode a deployment without a configured
    secret answers every request with 403 Forbidden and does nothing
    else, whatever secret is supplied; in development mode no request
    is answered with 403. *)
Theorem closed_without_secret :
  (forall (w : World CandidatesRoute.CandidateRow) (req : Request),
      (~ development_mode (process_env w) ->
       configured_secret (process_env w) = None ->
       CandidatesRoute.GET w req
       = (NextResponse.json (str "Forbidden") 403, [])) /\
      (development_mode (process_env w) ->
       NextResponse.status (fst (CandidatesRoute.GET w req)) <> 403%Z))
  /\
  (forall (w : World CampaignRoute.CampaignApplicationRow) (req : Request),
      (~ development_mode (process_env w) ->
       configured_secret (process_env w) = None ->
       CampaignRoute.GET w req
       = (NextResponse.json (str "Forbidden") 403, [])) /\
      (development_mode (process_env w) ->
       NextResponse.status (fst (CampaignRoute.GET w req)) <> 403%Z)).
Proof.
  assert (A : forall env secret,
             (~ development_mode env -> configured_secret env = None ->
              isAuthorized env secret = false) /\
             (development_mode env -> isAuthorized env secret = true)).
  { intros env secret. unfold development_mode, configured_secret, isAuthorized.
    destruct (strict_eq (NODE_ENV env) (Some (str "development"))) eqn:D.
    - apply strict_eq_Some in D. split; [intros N; contradiction | auto].
    - split.
      + intros _ C.
        destruct (CAMPAIGN_EXPORT_SECRET env) as [[|c s]|];
          [reflexivity | discriminate | reflexivity].
      + intros E. apply strict_eq_Some in E. congruence. }
  split; intros w req;
    destruct (A (process_env w) (get (searchParams req) (str "secret")))
      as [Closed Open].
  - split.
    + intros N C. specialize (Closed N C).
      destruct (cand_GET_cases w req)
        as [[_ E]|[[A' _]|[[A' _]|[A' _]]]]; congruence.
    + intros D S. apply cand_status_403 in S. rewrite (Open D) in S.
      discriminate.
  - split.
    + intros N C. specialize (Closed N C).
      destruct (camp_GET_cases w req)
        as [[_ E]|[[A' _]|[[A' _]|[A' _]]]]; congruence.
    + intros D S. apply camp_status_403 in S. rewrite (Open D) in S.
      discriminate.
Qed.

Lemma closed_without_secret_witness :
  CandidatesRoute.GET (closed_world two_candidates) (request_with [])
  = (NextResponse.json (str "Forbidden") 403, []) /\
  NextResponse.status
    (fst (CampaignRoute.GET (development_world two_applications)
            {| searchParams := [] |})) <> 403%Z.
Proof.
  destruct closed_without_secret as [Hcand Hcamp]. split.
  - apply (proj1 (Hcand (closed_world two_candidates) (request_with []))).
    + vm_compute. discriminate.
    + reflexivity.
  - apply (proj2 (Hcamp (development_world two_applications)
                    {| searchParams := [] |})).
    reflexivity.
Defined.

(** ** The bucket *)

(** X16.  The bucket is the supplied parameter, trimmed, with
    candidate-cvs standing in when it is absent or empty.  Unlike the
    role it is not validated: it is the empty name exactly when the
    supplied value is non-empty white space, and the status of the
    answer does not depend on it. *)
Theorem bucket_not_validated :
  (forall sp : URLSearchParams,
      CandidatesRoute.bucket_of sp
      = trim (supplied_or_default [get sp (str "bucket")]
                (str "candidate-cvs")) /\
      CampaignRoute.bucket_of sp = CandidatesRoute.bucket_of sp /\
      (CandidatesRoute.bucket_of sp = [] <->
       exists p, get sp (str "bucket") = Some p /\ p <> [] /\
                 forallb isWhiteSpace p = true)) /\
  (forall (w : World CandidatesRoute.CandidateRow) (req : Request)
          (b : jsstring),
      NextResponse.status
        (fst (CandidatesRoute.GET w
                {| searchParams := (str "bucket", b) :: searchParams req |}))
      = NextResponse.status
          (fst (CandidatesRoute.GET w
                  {| searchParams := without (str "bucket")
                                       (searchParams req) |}))) /\
  (forall (w : World CampaignRoute.CampaignApplicationRow) (req : Request)
          (b : jsstring),
      NextResponse.status
        (fst (CampaignRoute.GET w
                {| searchParams := (str "bucket", b) :: searchParams req |}))
      = NextResponse.status
          (fst (CampaignRoute.GET w
                  {| searchParams := without (str "bucket")
                                       (searchParams req) |}))).
Proof.
  split; [|split].
  - intros sp. split; [reflexivity|]. split; [reflexivity|].
    unfold CandidatesRoute.bucket_of. rewrite trim_nil_iff.
    destruct (get sp (str "bucket")) as [[|c s]|]; cbn [or_else]; split.
    + intros H. vm_compute in H. discriminate.
    + intros [p [E [N _]]]. injection E as <-. congruence.
    + intros H. exists (c :: s). repeat split; [discriminate | exact H].
    + intros [p [E [_ W]]]. injection E as <-. exact W.
    + intros H. vm_compute in H. discriminate.
    + intros [p [E _]]. discriminate.
  - intros w req b.
    assert (G : forall k, jseqb k (str "bucket") = false ->
                get ((str "bucket", b) :: searchParams req) k
                = get (without (str "bucket") (searchParams req)) k).
    { intros k Hk. rewrite get_without_other by exact Hk.
      cbn [get]. destruct (jseqb (str "bucket") k) eqn:E; [|reflexivity].
      apply jseqb_eq in E. subst k. rewrite jseqb_refl in Hk. discriminate. }
    assert (R : cand_role w {| searchParams :=
                                 (str "bucket", b) :: searchParams req |}
                = cand_role w {| searchParams :=
                                   without (str "bucket") (searchParams req) |}).
    { unfold cand_role, CandidatesRoute.role_of. cbn [searchParams].
      rewrite !G by reflexivity. reflexivity. }
    destruct (cand_GET_cases w {| searchParams :=
                                    (str "bucket", b) :: searchParams req |})
      as [[A E]|[[A [Z E]]|[[A [Z [F E]]]|H]]];
      try (cbn [searchParams] in A; rewrite G in A by reflexivity).
    + rewrite E. symmetry. apply cand_status_403. exact A.
    + rewrite E. symmetry. apply cand_status_400. rewrite <- R. auto.
    + rewrite E. symmetry. apply cand_status_500. rewrite <- R. auto.
    + rewrite (proj2 (cand_status_200 _ _) H). symmetry.
      apply cand_status_200. destruct H as [A [Z F]].
      cbn [searchParams] in A. rewrite G in A by reflexivity.
      unfold cand_reaches_rows. rewrite <- R. auto.
  - intros w req b.
    assert (G : forall k, jseqb k (str "bucket") = false ->
                get ((str "bucket", b) :: searchParams req) k
                = get (without (str "bucket") (searchParams req)) k).
    { intros k Hk. rewrite get_without_other by exact Hk.
      cbn [get]. destruct (jseqb (str "bucket") k) eqn:E; [|reflexivity].
      apply jseqb_eq in E. subst k. rewrite jseqb_refl in Hk. discriminate. }
    assert (R : camp_position w {| searchParams :=
                                     (str "bucket", b) :: searchParams req |}
                = camp_position w
                    {| searchParams :=
                         without (str "bucket") (searchParams req) |}).
    { unfold camp_position, CampaignRoute.position_of. cbn [searchParams].
      rewrite !G by reflexivity. reflexivity. }
    destruct (camp_GET_cases w {| searchParams :=
                                    (str "bucket", b) :: searchParams req |})
      as [[A E]|[[A [Z E]]|[[A [Z [F E]]]|H]]];
      try (cbn [searchParams] in A; rewrite G in A by reflexivity).
    + rewrite E. symmetry. apply camp_status_403. exact A.
    + rewrite E. symmetry. apply camp_status_400. rewrite <- R. auto.
    + rewrite E. symmetry. apply camp_status_500. rewrite <- R. auto.
    + rewrite (proj2 (camp_status_200 _ _) H). symmetry.
      apply camp_status_200. destruct H as [A [Z F]].
      cbn [searchParams] in A. rewrite G in A by reflexivity.
      unfold camp_reaches_rows. rewrite <- R. auto.
Qed.
